(** * BudgetWise: bank-statement reconciliation

    A shallow embedding of the reconciliation code of the [BankComparison]
    component (frontend/src/components/TransactionList.tsx): the CSV
    ingestor [parseCSV] with its date normaliser [formatDate], the matcher
    [compareTransactions] and the report generator [generateReport].

    Conventions of the embedding.
    - A JavaScript [number] is a value of [num]: not-a-number, a signed
      infinity, or a finite value carried as an exact rational.  The
      rounding of binary64 arithmetic is not part of the model.
    - Text is a [string] of 8-bit characters; case folding and white space
      are the ASCII ones.
    - An object of the bank-record array is identified by its slot in that
      array: [parseCSV] builds one fresh object per row, so that reference
      equality ([!==]) of two records of the array is equality of slots. *)

From Stdlib Require Import QArith Qabs Qround ZArith String Ascii DecimalString Lia.
From stdpp Require Import base list strings.

Local Open Scope string_scope.
Local Open Scope list_scope.

(** ** JavaScript numbers *)

Inductive num : Type :=
  | NaN
  | Inf (neg : bool)
  | Fin (q : Q).

(** [x - y] *)
Definition num_sub (x y : num) : num :=
  match x, y with
  | NaN, _ | _, NaN => NaN
  | Inf s, Inf s' => if Bool.eqb s s' then NaN else Inf s
  | Inf s, Fin _ => Inf s
  | Fin _, Inf s => Inf (negb s)
  | Fin a, Fin b => Fin (a - b)%Q
  end.

(** [Math.abs(x)] *)
Definition num_abs (x : num) : num :=
  match x with
  | NaN => NaN
  | Inf _ => Inf false
  | Fin q => Fin (Qabs q)
  end.

(** The order of two numbers; [None] when one of them is [NaN]. *)
Definition num_compare (x y : num) : option comparison :=
  match x, y with
  | NaN, _ | _, NaN => None
  | Inf s, Inf s' =>
      Some (if Bool.eqb s s' then Eq else if s then Lt else Gt)
  | Inf s, Fin _ => Some (if s then Lt else Gt)
  | Fin _, Inf s => Some (if s then Gt else Lt)
  | Fin a, Fin b => Some (a ?= b)%Q
  end.

(** [x < y] *)
Definition num_ltb (x y : num) : bool :=
  match num_compare x y with
  | Some Lt => true
  | _ => false
  end.

(** [x >= y] *)
Definition num_geb (x y : num) : bool :=
  match num_compare x y with
  | Some Gt | Some Eq => true
  | _ => false
  end.

(** [x > y] *)
Definition num_gtb (x y : num) : bool :=
  match num_compare x y with
  | Some Gt => true
  | _ => false
  end.

(** [isNaN(x)] *)
Definition isNaN (x : num) : bool :=
  match x with
  | NaN => true
  | _ => false
  end.

Definition is_finite (x : num) : Prop :=
  match x with
  | Fin _ => True
  | _ => False
  end.

(** ** JavaScript strings *)

Module JS.

Definition quote : ascii := "034"%char.
Definition newline : ascii := "010"%char.
Definition tab : ascii := "009"%char.

(** White space and line terminators, among the ASCII characters. *)
Definition is_space (c : ascii) : bool :=
  let n := nat_of_ascii c in
  ((9 <=? n)%nat && (n <=? 13)%nat) || (n =? 32)%nat.

Definition is_digit (c : ascii) : bool :=
  let n := nat_of_ascii c in
  (48 <=? n)%nat && (n <=? 57)%nat.

Fixpoint trimStart (s : string) : string :=
  match s with
  | String c r => if is_space c then trimStart r else s
  | EmptyString => EmptyString
  end.

Definition trimEnd (s : string) : string :=
  String.rev (trimStart (String.rev s)).

(** [s.trim()] *)
Definition trim (s : string) : string := trimEnd (trimStart s).

(** A string of white space only. *)
Fixpoint allSpace (s : string) : bool :=
  match s with
  | String c r => is_space c && allSpace r
  | EmptyString => true
  end.

(** [s.split(sep)] for a separator of one character. *)
Fixpoint split (sep : ascii) (s : string) : list string :=
  match s with
  | EmptyString => [EmptyString]
  | String c r =>
      if Ascii.eqb c sep then EmptyString :: split sep r
      else
        match split sep r with
        | piece :: pieces => String c piece :: pieces
        | [] => [String c EmptyString]
        end
  end.

(** The character [c] occurs in [s]. *)
Definition contains (c : ascii) (s : string) : Prop :=
  exists a b, s = a +:+ String c b.

(** [s.includes(needle)] *)
Fixpoint includes (s needle : string) : bool :=
  String.prefix needle s
  || match s with
     | String _ r => includes r needle
     | EmptyString => false
     end.

Definition lower (c : ascii) : ascii :=
  let n := nat_of_ascii c in
  if (65 <=? n)%nat && (n <=? 90)%nat then ascii_of_nat (n + 32) else c.

(** [s.toLowerCase()] on a text of ASCII characters: the letters from A to
    Z are folded, every other character is kept. *)
Fixpoint toLowerCase (s : string) : string :=
  match s with
  | String c r => String (lower c) (toLowerCase r)
  | EmptyString => EmptyString
  end.

(** [s.replace(/Q/g, E)] with [Q] the quote character and [E] the
    empty string: every quote character is removed. *)
Fixpoint stripQuotes (s : string) : string :=
  match s with
  | String c r =>
      if Ascii.eqb c quote then stripQuotes r else String c (stripQuotes r)
  | EmptyString => EmptyString
  end.

(** [s.replace(from, to)] for one-character strings: the first
    occurrence only. *)
Fixpoint replaceFirst (from to : ascii) (s : string) : string :=
  match s with
  | String c r =>
      if Ascii.eqb c from then String to r
      else String c (replaceFirst from to r)
  | EmptyString => EmptyString
  end.

(** [s.padStart(2, zero)] with [zero] the digit 0. *)
Definition padStart2 (s : string) : string :=
  match String.length s with
  | 0%nat => "00"
  | 1%nat => "0" +:+ s
  | _ => s
  end.

(** [array.findIndex(p)], [-1] when no element satisfies [p]. *)
Definition findIndex {A : Type} (p : A -> bool) (l : list A) : Z :=
  match list_find (fun x => Is_true (p x)) l with
  | Some (i, _) => Z.of_nat i
  | None => (-1)%Z
  end.

(** [array[i]]: [None] is [undefined]. *)
Definition item {A : Type} (l : list A) (i : Z) : option A :=
  if (i <? 0)%Z then None else l !! Z.to_nat i.

(** The longest prefix of decimal digits, and what follows it. *)
Fixpoint spanDigits (s : string) : string * string :=
  match s with
  | String c r =>
      if is_digit c
      then let '(ds, rest) := spanDigits r in (String c ds, rest)
      else (EmptyString, s)
  | EmptyString => (EmptyString, EmptyString)
  end.

Definition allDigits (s : string) : bool :=
  String.eqb (snd (spanDigits s)) EmptyString.

(** The value of a string of decimal digits. *)
Fixpoint digitsValue (acc : Z) (s : string) : Z :=
  match s with
  | String c r => digitsValue (10 * acc + Z.of_nat (nat_of_ascii c - 48)) r
  | EmptyString => acc
  end.

(** A leading sign: whether it is a minus, and what follows it. *)
Definition takeSign (s : string) : bool * string :=
  match s with
  | String c r =>
      if Ascii.eqb c "-" then (true, r)
      else if Ascii.eqb c "+" then (false, r)
      else (false, s)
  | EmptyString => (false, s)
  end.

(** The value of an exponent part at the head of [s], [0] when [s] does
    not start with one. *)
Definition exponentOf (s : string) : Z :=
  match s with
  | String c r =>
      if Ascii.eqb c "e" || Ascii.eqb c "E" then
        let '(neg, r1) := takeSign r in
        let '(ds, _) := spanDigits r1 in
        if String.eqb ds EmptyString then 0%Z
        else if neg then (- digitsValue 0 ds)%Z else digitsValue 0 ds
      else 0%Z
  | EmptyString => 0%Z
  end.

(** [parseFloat(s)]: the value of the longest prefix of [s], after
    leading white space, that is a decimal literal; [NaN] when there is
    none.  The value is the exact decimal one. *)
Definition parseFloat (s : string) : num :=
  let '(neg, r) := takeSign (trimStart s) in
  if String.prefix "Infinity" r then Inf neg
  else
    let '(ip, r1) := spanDigits r in
    let '(fp, r2) :=
      match r1 with
      | String c r' => if Ascii.eqb c "." then spanDigits r' else (EmptyString, r1)
      | EmptyString => (EmptyString, r1)
      end in
    if String.eqb ip EmptyString && String.eqb fp EmptyString then NaN
    else
      let m := digitsValue 0 (ip +:+ fp) in
      let e := (exponentOf r2 - Z.of_nat (String.length fp))%Z in
      let q := (inject_Z m * Qpower (10 # 1) e)%Q in
      Fin (Qred (if neg then - q else q)%Q).



End JS.

(** ** Data model *)

Inductive TxType : Type := income | expense.
Inductive BankType : Type := debit | credit.

Definition TxType_eqb (a b : TxType) : bool :=
  match a, b with
  | income, income | expense, expense => true
  | _, _ => false
  end.

Definition BankType_eqb (a b : BankType) : bool :=
  match a, b with
  | debit, debit | credit, credit => true
  | _, _ => false
  end.

(** [interface Transaction] *)
Record Transaction : Type := mkTransaction {
  tx_id : string;
  tx_date : string;
  tx_amount : num;
  tx_category : string;
  tx_type : TxType;
  tx_description : string
}.

(** [interface BankTransaction] *)
Record BankTransaction : Type := mkBankTransaction {
  bank_date : string;
  bank_description : string;
  bank_amount : num;
  bank_type : BankType
}.

(** A bank record of the array [bankTransactions]: its slot, which is its
    identity as an object, and its contents. *)
Abbreviation BankRef := (nat * BankTransaction)%type (only parsing).

Definition ref_slot (r : BankRef) : nat := fst r.
Definition ref_record (r : BankRef) : BankTransaction := snd r.

(** [interface ComparisonResult] *)
Record ComparisonResult : Type := mkComparisonResult {
  matched : list (Transaction * BankRef);
  userOnly : list Transaction;
  bankOnly : list BankRef;
  mismatched : list (Transaction * BankRef * string)
}.

(** ** The matcher: [compareTransactions] *)

Module Matcher.

(** The literal [0.01]. *)
Definition tolerance : num := Fin (1 # 100).

Definition amount_mismatch : string := "Amount mismatch".
Definition type_mismatch : string := "Transaction type mismatch".

(** [Math.abs(userTx.amount - bankTx.amount)] *)
Definition amountGap (userTx : Transaction) (bankTx : BankTransaction) : num :=
  num_abs (num_sub (tx_amount userTx) (bank_amount bankTx)).

Definition amountMatch (userTx : Transaction) (bankTx : BankTransaction) : bool :=
  num_ltb (amountGap userTx bankTx) tolerance.

Definition dateMatch (userTx : Transaction) (bankTx : BankTransaction) : bool :=
  String.eqb (tx_date userTx) (bank_date bankTx).

Definition typeMatch (userTx : Transaction) (bankTx : BankTransaction) : bool :=
  (TxType_eqb (tx_type userTx) income && BankType_eqb (bank_type bankTx) credit)
  || (TxType_eqb (tx_type userTx) expense && BankType_eqb (bank_type bankTx) debit).

(** The callback of the first [find]. *)
Definition isMatching (userTx : Transaction) (bankTx : BankTransaction) : bool :=
  amountMatch userTx bankTx && dateMatch userTx bankTx && typeMatch userTx bankTx.

(** The callback of the second [find]. *)
Definition isPotentialMismatch (userTx : Transaction) (bankTx : BankTransaction) : bool :=
  dateMatch userTx bankTx
  && (num_geb (amountGap userTx bankTx) tolerance || negb (typeMatch userTx bankTx)).

Definition reasonOf (userTx : Transaction) (bankTx : BankTransaction) : string :=
  if num_geb (amountGap userTx bankTx) tolerance
  then amount_mismatch
  else type_mismatch.

(** [bankTransactions.find(...)]: the first record of the whole array
    that satisfies the callback, with its slot. *)
Definition findBank (p : BankTransaction -> bool)
    (bankTransactions : list BankTransaction) : option BankRef :=
  list_find (fun bankTx => Is_true (p bankTx)) bankTransactions.

(** [result.userOnly.filter((t) => t.id !== userTx.id)] *)
Definition dropUser (userTx : Transaction) (l : list Transaction) : list Transaction :=
  filter (fun t => tx_id t <> tx_id userTx) l.

(** [result.bankOnly.filter((t) => t !== found)] *)
Definition dropBank (found : BankRef) (l : list BankRef) : list BankRef :=
  filter (fun t => ref_slot t <> ref_slot found) l.

(** [{ matched: [], userOnly: [...transactions],
       bankOnly: [...bankTransactions], mismatched: [] }] *)
Definition initial (transactions : list Transaction)
    (bankTransactions : list BankTransaction) : ComparisonResult :=
  {| matched := [];
     userOnly := transactions;
     bankOnly := imap (fun i bankTx => (i, bankTx)) bankTransactions;
     mismatched := [] |}.

(** The body of [transactions.forEach((userTx) => ...)]. *)
Definition visit (bankTransactions : list BankTransaction)
    (result : ComparisonResult) (userTx : Transaction) : ComparisonResult :=
  match findBank (isMatching userTx) bankTransactions with
  | Some matchingBankTx =>
      {| matched := matched result ++ [(userTx, matchingBankTx)];
         userOnly := dropUser userTx (userOnly result);
         bankOnly := dropBank matchingBankTx (bankOnly result);
         mismatched := mismatched result |}
  | None =>
      match findBank (isPotentialMismatch userTx) bankTransactions with
      | Some potentialMismatch =>
          {| matched := matched result;
             userOnly := dropUser userTx (userOnly result);
             bankOnly := dropBank potentialMismatch (bankOnly result);
             mismatched :=
               mismatched result
               ++ [(userTx, potentialMismatch,
                    reasonOf userTx (ref_record potentialMismatch))] |}
      | None => result
      end
  end.

(** Lines 570-628: the result built by one comparison run. *)
Definition compare (transactions : list Transaction)
    (bankTransactions : list BankTransaction) : ComparisonResult :=
  foldl (visit bankTransactions) (initial transactions bankTransactions)
    transactions.

(** [compareTransactions], with its guard on an empty bank statement:
    [None] stands for the early return after the toast. *)
Definition compareTransactions (transactions : list Transaction)
    (bankTransactions : list BankTransaction) : option ComparisonResult :=
  match bankTransactions with
  | [] => None
  | _ => Some (compare transactions bankTransactions)
  end.

(** What one user transaction does on its own: the bank record it is
    paired with as a match, or as a mismatch with its reason. *)
Definition matchOf (bankTransactions : list BankTransaction)
    (userTx : Transaction) : option (Transaction * BankRef) :=
  pair userTx <$> findBank (isMatching userTx) bankTransactions.

Definition mismatchOf (bankTransactions : list BankTransaction)
    (userTx : Transaction) : option (Transaction * BankRef * string) :=
  match findBank (isMatching userTx) bankTransactions with
  | Some _ => None
  | None =>
      (fun p => (userTx, p, reasonOf userTx (ref_record p)))
        <$> findBank (isPotentialMismatch userTx) bankTransactions
  end.

(** The bank record a user transaction consumes, if any. *)
Definition pairedWith (bankTransactions : list BankTransaction)
    (userTx : Transaction) : option BankRef :=
  match findBank (isMatching userTx) bankTransactions with
  | Some m => Some m
  | None => findBank (isPotentialMismatch userTx) bankTransactions
  end.

(** A user transaction stays in [userOnly] as long as no visited
    transaction that found a bank record carries its id. *)
Definition survives (bankTransactions : list BankTransaction)
    (visited : list Transaction) (t : Transaction) : Prop :=
  Forall (fun u => is_Some (pairedWith bankTransactions u) ->
                   tx_id t <> tx_id u) visited.

(** A bank record stays in [bankOnly] as long as no visited transaction
    found it. *)
Definition untouched (bankTransactions : list BankTransaction)
    (visited : list Transaction) (o : BankRef) : Prop :=
  Forall (fun u => forall p, pairedWith bankTransactions u = Some p ->
                             ref_slot o <> ref_slot p) visited.

(** The bank records held by the pairs of a result. *)
Definition pairedBank (r : ComparisonResult) : list BankRef :=
  (snd <$> matched r) ++ ((fun t => snd (fst t)) <$> mismatched r).

(** How often the bank record of slot [i] occurs in the three buckets
    [matched], [mismatched] and [bankOnly] of a result. *)
Definition occurrences (r : ComparisonResult) (i : nat) : nat :=
  length (filter (fun o => ref_slot o = i) (pairedBank r ++ bankOnly r)).

(** [found] is the first record of the array, in its order, that
    satisfies [p], together with the slot it stands in. *)
Definition firstAmongAll (p : BankTransaction -> bool)
    (bankTransactions : list BankTransaction) (found : BankRef) : Prop :=
  bankTransactions !! ref_slot found = Some (ref_record found)
  /\ p (ref_record found) = true
  /\ forall j b, bankTransactions !! j = Some b ->
                (j < ref_slot found)%nat -> p b = false.

End Matcher.

(** ** Exceptions *)

(** The outcome of a computation that may [throw]. *)
Inductive outcome (A : Type) : Type :=
  | Ok (a : A)
  | Throw (msg : string).
Arguments Ok {A} a.
Arguments Throw {A} msg.

#[global] Instance outcome_ret : MRet outcome := fun A a => Ok a.
#[global] Instance outcome_bind : MBind outcome := fun A B k m =>
  match m with
  | Ok a => k a
  | Throw msg => Throw msg
  end.

(** A method call on [undefined]. *)
Definition defined {A : Type} (o : option A) : outcome A :=
  match o with
  | Some a => Ok a
  | None => Throw "TypeError: Cannot read properties of undefined"
  end.

(** ** The ingestor: [parseCSV] and [formatDate] *)

Section Ingest.

(** The host's [Date] constructor, as [formatDate] uses it: for a string
    that [new Date] turns into a valid date, the part of its
    [toISOString()] before the letter T; [None] when the date is invalid.
    What [new Date] accepts besides the ISO format depends on the host. *)
Variable Date_isoDay : string -> option string.

Definition invalidDate : string := "Invalid Date".

(** The patterns [^(\d{1,2})S(\d{1,2})S(\d{4})$], for a separator [S]:
    the day, the month and the year. *)
Definition matchDMY (sep : ascii) (dateStr : string) : option (string * string * string) :=
  match JS.split sep dateStr with
  | [day; month; year] =>
      let short s :=
        JS.allDigits s && (1 <=? String.length s)%nat && (String.length s <=? 2)%nat in
      if short day && short month
         && JS.allDigits year && (String.length year =? 4)%nat
      then Some (day, month, year)
      else None
  | _ => None
  end.

(** [new Date(`${year}-${month.padStart(2, ...)}-${day.padStart(2, ...)}`)] *)
Definition rebuilt (parts : string * string * string) : option string :=
  let '(day, month, year) := parts in
  Date_isoDay (year +:+ "-" +:+ JS.padStart2 month +:+ "-" +:+ JS.padStart2 day).

Definition formatDate (dateStr : string) : string :=
  match Date_isoDay dateStr with
  | Some iso => iso
  | None =>
      match matchDMY "." dateStr ≫= rebuilt with
      | Some iso => iso
      | None =>
          match matchDMY "-" dateStr ≫= rebuilt with
          | Some iso => iso
          | None => invalidDate
          end
      end
  end.

(** The delimiter of a statement, from its header line; each of the three
    is a string of one character. *)
Definition detectDelimiter (headerLine : string) : ascii :=
  if JS.includes headerLine ";" then ";"%char
  else if JS.includes headerLine (String JS.tab EmptyString) then JS.tab
  else ","%char.

(** The cells of a line: split, trimmed, without quote characters. *)
Definition cells (delimiter : ascii) (line : string) : list string :=
  (fun col => JS.stripQuotes (JS.trim col)) <$> JS.split delimiter line.

(** The positions of the columns in the header. *)
Record Columns : Type := mkColumns {
  dateIndex : Z;
  descIndex : Z;
  amountIndex : Z;
  typeIndex : Z
}.

Definition isDateHeader (h : string) : bool :=
  JS.includes h "date" || JS.includes h "datum".
Definition isDescHeader (h : string) : bool :=
  JS.includes h "description" || JS.includes h "memo"
  || JS.includes h "detail" || JS.includes h "beschreibung".
Definition isAmountHeader (h : string) : bool :=
  JS.includes h "amount" || JS.includes h "betrag".
Definition isTypeHeader (h : string) : bool :=
  JS.includes h "type" || JS.includes h "transaction" || JS.includes h "art".

Definition locate (headers : list string) : Columns :=
  {| dateIndex := JS.findIndex isDateHeader headers;
     descIndex := JS.findIndex isDescHeader headers;
     amountIndex := JS.findIndex isAmountHeader headers;
     typeIndex := JS.findIndex isTypeHeader headers |}.

Definition columnsOf (headerLine : string) : Columns :=
  locate (cells (detectDelimiter headerLine) (JS.toLowerCase headerLine)).

Definition missingRequired (c : Columns) : bool :=
  (dateIndex c =? -1)%Z || (descIndex c =? -1)%Z || (amountIndex c =? -1)%Z.

(** [Math.max(dateIndex, descIndex, amountIndex,
             typeIndex !== -1 ? typeIndex : 0)] *)
Definition lastIndex (c : Columns) : Z :=
  Z.max (Z.max (Z.max (dateIndex c) (descIndex c)) (amountIndex c))
        (if negb (typeIndex c =? -1)%Z then typeIndex c else 0%Z).

(** [parseFloat(cell.replace(comma, period))] *)
Definition parseAmount (cell : string) : num :=
  JS.parseFloat (JS.replaceFirst "," "." cell).

Definition isCreditWord (typeValue : string) : bool :=
  JS.includes typeValue "credit" || JS.includes typeValue "deposit"
  || JS.includes typeValue "haben".

(** The callback of [lines.slice(1).map]: [None] is [null].  Reading a
    cell that does not exist is the [TypeError] of the method call that
    follows it; past the guard on [columns.length] no such read occurs
    (lemma [parseRow_total]). *)
Definition parseRow (delimiter : ascii) (c : Columns) (line : string)
    : outcome (option BankTransaction) :=
  let columns := cells delimiter line in
  if (Z.of_nat (length columns) <=? lastIndex c)%Z
     || String.eqb (JS.trim line) EmptyString
  then Ok None
  else
    amountCell ← defined (JS.item columns (amountIndex c));
    '(amount, type) ←
      (if negb (typeIndex c =? -1)%Z then
         typeCell ← defined (JS.item columns (typeIndex c));
         let typeValue := JS.toLowerCase typeCell in
         Ok (parseAmount amountCell,
             if isCreditWord typeValue then credit else debit)
       else
         let originalAmount := parseAmount amountCell in
         Ok (num_abs originalAmount,
             if num_gtb originalAmount (Fin 0) then credit else debit));
    dateCell ← defined (JS.item columns (dateIndex c));
    let formattedDate := formatDate dateCell in
    if String.eqb formattedDate invalidDate then Ok None
    else
      descCell ← defined (JS.item columns (descIndex c));
      Ok (Some {| bank_date := formattedDate;
                  bank_description := descCell;
                  bank_amount := amount;
                  bank_type := type |}).

(** The callback of the final [filter]. *)
Definition keepRow (t : option BankTransaction) : option BankTransaction :=
  match t with
  | Some r => if negb (isNaN (bank_amount r)) then Some r else None
  | None => None
  end.

Definition missingColumns : string :=
  "Required columns (Date, Description, Amount) not found".

(** [parseCSV] on the lines of the trimmed text. *)
Definition parseLines (lines : list string) : outcome (list BankTransaction) :=
  match lines with
  | [] => Ok []
  | headerLine :: dataLines =>
      let delimiter := detectDelimiter headerLine in
      let c := columnsOf headerLine in
      if missingRequired c then Throw missingColumns
      else
        rows ← mapM (parseRow delimiter c) dataLines;
        Ok (omap keepRow rows)
  end.

Definition parseCSV (text : string) : outcome (list BankTransaction) :=
  parseLines (JS.split JS.newline (JS.trim text)).

(** The four defects of a data line. *)
Definition blankLine (line : string) : Prop := JS.trim line = EmptyString.

Definition tooFewColumns (delimiter : ascii) (c : Columns) (line : string) : Prop :=
  (Z.of_nat (length (cells delimiter line)) <= lastIndex c)%Z.

Definition dateCellOf (delimiter : ascii) (c : Columns) (line : string) : string :=
  default EmptyString (JS.item (cells delimiter line) (dateIndex c)).

Definition amountCellOf (delimiter : ascii) (c : Columns) (line : string) : string :=
  default EmptyString (JS.item (cells delimiter line) (amountIndex c)).

Definition invalidDateRow (delimiter : ascii) (c : Columns) (line : string) : Prop :=
  formatDate (dateCellOf delimiter c line) = invalidDate.

Definition unparsableAmount (delimiter : ascii) (c : Columns) (line : string) : Prop :=
  parseAmount (amountCellOf delimiter c line) = NaN.

Definition defective (delimiter : ascii) (c : Columns) (line : string) : Prop :=
  blankLine line \/ tooFewColumns delimiter c line
  \/ invalidDateRow delimiter c line \/ unparsableAmount delimiter c line.

(** The amount a record gets from its amount cell: as parsed when the
    header has a type column, its absolute value otherwise. *)
Definition storedAmount (delimiter : ascii) (c : Columns) (line : string) : num :=
  if negb (typeIndex c =? -1)%Z
  then parseAmount (amountCellOf delimiter c line)
  else num_abs (parseAmount (amountCellOf delimiter c line)).

(** What a data line contributes to the result of [parseCSV]. *)
Definition rowRecord (delimiter : ascii) (c : Columns) (line : string)
    : option BankTransaction :=
  match parseRow delimiter c line with
  | Ok t => keepRow t
  | Throw _ => None
  end.

End Ingest.

(** A host whose [Date] accepts the ISO calendar dates [YYYY-MM-DD] with a
    month from 01 to 12 and a day from 01 to 28 and nothing else: on these
    every host agrees, and the date read back is the same string. *)
Definition isoDatesOnly (s : string) : option string :=
  match JS.split "-" s with
  | [year; month; day] =>
      let m := JS.digitsValue 0 month in
      let d := JS.digitsValue 0 day in
      if JS.allDigits year && (String.length year =? 4)%nat
         && JS.allDigits month && (String.length month =? 2)%nat
         && JS.allDigits day && (String.length day =? 2)%nat
         && (1 <=? m)%Z && (m <=? 12)%Z && (1 <=? d)%Z && (d <=? 28)%Z
      then Some s
      else None
  | _ => None
  end.

(** ** The report generator: [generateReport] *)

Module Report.

Definition nl : string := String JS.newline EmptyString.


(** One line of the document: its cells, separated by commas. *)
Definition line (cells : list string) : string :=
  String.concat "," cells +:+ nl.

Definition typeName (t : TxType) : string :=
  match t with
  | income => "income"
  | expense => "expense"
  end.



Section Render.

(** How the value of an interpolation [${...}] that stands between
    quote characters is written, quote characters included. *)
Variable cell : string -> string.







End Render.











End Report.

(** ** Sample inputs *)

Module Samples.

Definition twinA : Transaction :=
  mkTransaction "tx-1" "2024-01-05" (Fin 50) "Food" expense "Lunch".

Definition twinB : Transaction :=
  mkTransaction "tx-2" "2024-01-05" (Fin 50) "Food" expense "Dinner".

Definition refund : Transaction :=
  mkTransaction "tx-3" "2024-01-05" (Fin 50) "Other Income" income "Refund".

Definition nearby : Transaction :=
  mkTransaction "tx-4" "2024-01-05" (Fin (50009 # 1000)) "Food" expense "Lunch".

Definition distant : Transaction :=
  mkTransaction "tx-5" "2024-01-05" (Fin (50011 # 1000)) "Food" expense "Lunch".

Definition cardPayment : BankTransaction :=
  mkBankTransaction "2024-01-05" "CARD PAYMENT" (Fin 50) debit.







(** A statement with a type column and a negative amount. *)
Definition signedStatement : string :=
  "Date,Description,Amount,Type" +:+ Report.nl
  +:+ "2024-01-05,Coffee,-5.00,debit".

(** A statement whose amount cell reads as an infinite number. *)
Definition infiniteStatement : string :=
  "Date,Description,Amount" +:+ Report.nl
  +:+ "2024-01-05,Glitch,Infinity".

(** A text of white space only. *)
Definition blankText : string :=
  "  " +:+ Report.nl +:+ String JS.tab EmptyString +:+ Report.nl +:+ " ".

Definition mixedStatement : string :=
  "Date;Description;Amount" +:+ Report.nl
  +:+ "2024-01-05;Coffee;-5,00" +:+ Report.nl
  +:+ "not-a-date;Tea;1,00" +:+ Report.nl
  +:+ "2024-01-06;Cake;n/a" +:+ Report.nl
  +:+ "2024-01-07;Short" +:+ Report.nl
  +:+ "   " +:+ Report.nl
  +:+ "2024-01-07;Salary;1200.50".

(** A statement whose header has no date column. *)
Definition headlessStatement : string :=
  "Description,Amount" +:+ Report.nl
  +:+ "Coffee,5.00".

End Samples.

(** ** The words of a header *)

Module Header.

(** The text [word] occurs in [s]. *)
Definition mentions (word s : string) : Prop :=
  exists a b, s = a +:+ word +:+ b.

(** A header cell that names the date, the description or the amount. *)
Definition namesDate (cell : string) : Prop :=
  mentions "date" cell \/ mentions "datum" cell.

Definition namesDescription (cell : string) : Prop :=
  mentions "description" cell \/ mentions "memo" cell
  \/ mentions "detail" cell \/ mentions "beschreibung" cell.

Definition namesAmount (cell : string) : Prop :=
  mentions "amount" cell \/ mentions "betrag" cell.

(** [pieces] are the parts of [s] between the occurrences of [sep]. *)
Definition splitsInto (sep : ascii) (s : string) (pieces : list string) : Prop :=
  s = String.concat (String sep EmptyString) pieces
  /\ pieces <> []
  /\ Forall (fun piece => ~ JS.contains sep piece) pieces.

(** [i] is the position of the first of [cells] that satisfies [names],
    and [-1] when none does. *)
Definition firstNaming (names : string -> Prop) (cells : list string)
    (i : Z) : Prop :=
  (i = (-1)%Z /\ forall cell, cell ∈ cells -> ~ names cell)
  \/ (exists n cell,
        i = Z.of_nat n /\ cells !! n = Some cell /\ names cell
        /\ forall j cell', cells !! j = Some cell' -> (j < n)%nat ->
                           ~ names cell').

End Header.

(** ** The rows of the report *)

Module Rows.




End Rows.

(** ** More on one comparison run *)

Module Pairing.
Import Matcher.

(** The slots of the bank records that a list of user transactions finds. *)
Definition takenSlots (bankTransactions : list BankTransaction)
    (visited : list Transaction) : list nat :=
  omap (fun u => ref_slot <$> pairedWith bankTransactions u) visited.

(** The user transactions of a result, bucket after bucket. *)
Definition placedUsers (r : ComparisonResult) : list Transaction :=
  (fst <$> matched r) ++ ((fun t => fst (fst t)) <$> mismatched r)
  ++ userOnly r.

(** No bank record carries the date of the user transaction. *)
Definition quietDay (bankTransactions : list BankTransaction)
    (userTx : Transaction) : Prop :=
  forall b, b ∈ bankTransactions -> tx_date userTx <> bank_date b.

End Pairing.

(** ** Characters of a text *)

Module Chars.

(** The character [c] occurs in [s], as a test. *)
Fixpoint hasChar (c : ascii) (s : string) : bool :=
  match s with
  | String d r => Ascii.eqb d c || hasChar c r
  | EmptyString => false
  end.

(** A text of characters below 128 only. *)
Fixpoint isAscii (s : string) : bool :=
  match s with
  | String c r => (nat_of_ascii c <? 128)%nat && isAscii r
  | EmptyString => true
  end.

(** A letter of either case. *)
Definition isLetter (c : ascii) : bool :=
  let n := nat_of_ascii c in
  ((65 <=? n)%nat && (n <=? 90)%nat) || ((97 <=? n)%nat && (n <=? 122)%nat).

End Chars.

(** ** More sample inputs *)

Module Fixtures.

(** A statement without a type column. *)
Definition plainStatement : string :=
  "Date,Description,Amount" +:+ Report.nl
  +:+ "2024-01-05,Coffee,-5.00" +:+ Report.nl
  +:+ "2024-01-06,Salary,1200.50".

(** The same statement between blank lines. *)
Definition paddedStatement : string :=
  (Report.nl +:+ "  ") +:+ plainStatement +:+ (" " +:+ Report.nl).

(** The records of [plainStatement]. *)
Definition coffee : BankTransaction :=
  mkBankTransaction "2024-01-05" "Coffee" (Fin (5 # 1)) debit.

Definition salary : BankTransaction :=
  mkBankTransaction "2024-01-06" "Salary" (Fin (2401 # 2)) credit.

Definition plainRecords : list BankTransaction := [coffee; salary].

(** A bank record of another day. *)
Definition laterPayment : BankTransaction :=
  mkBankTransaction "2024-02-01" "RENT" (Fin 700) debit.

(** A bank record with a negative amount, as a statement with a type
    column gives it. *)
Definition signedCoffee : BankTransaction :=
  mkBankTransaction "2024-01-05" "Coffee" (Fin (-5 # 1)) debit.

End Fixtures.

(** ** Day-first dates *)

Module Dates.

(** One or two decimal digits. *)
Definition shortNumber (s : string) : Prop :=
  JS.allDigits s = true /\ (1 <= String.length s <= 2)%nat.

(** Four decimal digits. *)
Definition yearNumber (s : string) : Prop :=
  JS.allDigits s = true /\ String.length s = 4%nat.

(** Day, month and year with a separator between them. *)
Definition dayFirst (sep : ascii) (day month year : string) : string :=
  day +:+ String sep (month +:+ String sep year).

(** Year, month and day with dashes, day and month of two digits. *)
Definition isoText (day month year : string) : string :=
  year +:+ "-" +:+ JS.padStart2 month +:+ "-" +:+ JS.padStart2 day.

End Dates.

(** ** More JavaScript numbers *)

(** [x + y] *)
Definition num_add (x y : num) : num :=
  match x, y with
  | NaN, _ | _, NaN => NaN
  | Inf s, Inf s' => if Bool.eqb s s' then Inf s else NaN
  | Inf s, Fin _ => Inf s
  | Fin _, Inf s => Inf s
  | Fin a, Fin b => Fin (a + b)%Q
  end.

(** [x / y]; the zero of this model has no sign, and counts as positive. *)
Definition num_div (x y : num) : num :=
  match x, y with
  | NaN, _ | _, NaN => NaN
  | Inf _, Inf _ => NaN
  | Inf s, Fin b =>
      Inf (xorb s (match (b ?= 0)%Q with Lt => true | _ => false end))
  | Fin a, Inf _ => Fin 0
  | Fin a, Fin b =>
      match (b ?= 0)%Q with
      | Eq =>
          match (a ?= 0)%Q with
          | Eq => NaN
          | Lt => Inf true
          | Gt => Inf false
          end
      | Lt | Gt => Fin (a / b)%Q
      end
  end.

(** ** The transaction list: the filters of [TransactionList] *)

Module Listing.

(** [Array.from(new Set(xs))]: the strings of [xs], each one once, in the
    order of their first occurrence; [seen] are the strings the set
    already holds. *)
Fixpoint setInto (seen xs : list string) : list string :=
  match xs with
  | [] => []
  | x :: rest =>
      if decide (x ∈ seen) then setInto seen rest
      else x :: setInto (x :: seen) rest
  end.

Definition fromSet (xs : list string) : list string := setInto [] xs.

(** The categories offered by the category filter. *)
Definition categories (transactions : list Transaction) : list string :=
  fromSet (tx_category <$> transactions).

Definition matchesSearch (searchTerm : string) (transaction : Transaction) : bool :=
  JS.includes (JS.toLowerCase (tx_description transaction))
              (JS.toLowerCase searchTerm)
  || JS.includes (JS.toLowerCase (tx_category transaction))
                 (JS.toLowerCase searchTerm).

Definition matchesType (filterType : string) (transaction : Transaction) : bool :=
  String.eqb filterType "all"
  || String.eqb (Report.typeName (tx_type transaction)) filterType.

Definition matchesCategory (filterCategory : string) (transaction : Transaction) : bool :=
  String.eqb filterCategory "all"
  || String.eqb (tx_category transaction) filterCategory.

Definition filteredTransactions (searchTerm filterType filterCategory : string)
    (transactions : list Transaction) : list Transaction :=
  filter (fun transaction =>
            Is_true (matchesSearch searchTerm transaction
                     && matchesType filterType transaction
                     && matchesCategory filterCategory transaction))
         transactions.

End Listing.

(** ** The expense calendar: [ExpenseCalendar] *)

Module Calendar.

Inductive Period : Type := daily | weekly | monthly.

(** [list.reduce((sum, t) => sum + t.amount, 0)] *)
Definition total (l : list Transaction) : num :=
  foldl (fun sum t => num_add sum (tx_amount t)) (Fin 0) l.

Definition isExpense (t : Transaction) : bool := TxType_eqb (tx_type t) expense.

Definition onDay (dateStr : string) (t : Transaction) : bool :=
  String.eqb (tx_date t) dateStr.

(** [getDailyExpenses(date)], on the ISO day [dateStr] of [date]. *)
Definition getDailyExpenses (transactions : list Transaction)
    (dateStr : string) : num :=
  total (filter (fun t => Is_true (isExpense t && onDay dateStr t)) transactions).

(** [period === 'daily' ? budget : budget / 30] *)
Definition dailyBudget (period : Period) (budget : num) : num :=
  match period with
  | daily => budget
  | weekly | monthly => num_div budget (Fin 30)
  end.

Definition isDayOverBudget (period : Period) (budget : num)
    (transactions : list Transaction) (dateStr : string) : bool :=
  num_gtb (getDailyExpenses transactions dateStr) (dailyBudget period budget).

(** The calendar modifier [hasExpenses]. *)
Definition hasExpenses (transactions : list Transaction) (dateStr : string) : bool :=
  num_gtb (getDailyExpenses transactions dateStr) (Fin 0).

(** [getSelectedDateExpenses()]; [None] is no selected date. *)
Definition getSelectedDateExpenses (transactions : list Transaction)
    (selectedDate : option string) : list Transaction :=
  match selectedDate with
  | None => []
  | Some dateStr => filter (fun t => Is_true (onDay dateStr t)) transactions
  end.

Definition selectedDayTotal (transactions : list Transaction)
    (selectedDate : option string) : num :=
  total (filter (fun t => Is_true (isExpense t))
                (getSelectedDateExpenses transactions selectedDate)).

(** The badge of the selected day is of the destructive variant. *)
Definition badgeDestructive (budget : num) (transactions : list Transaction)
    (selectedDate : option string) : bool :=
  num_gtb (selectedDayTotal transactions selectedDate) (num_div budget (Fin 30)).

End Calendar.

(** ** Sample transactions *)

Module Ledger.

Definition groceries : Transaction :=
  mkTransaction "tx-10" "2024-03-01" (Fin 40) "Food" expense "Weekly GROCERIES".

Definition rent : Transaction :=
  mkTransaction "tx-11" "2024-03-01" (Fin 700) "Housing" expense "Rent".

Definition wages : Transaction :=
  mkTransaction "tx-12" "2024-03-01" (Fin 2000) "Salary" income "March wages".

Definition snack : Transaction :=
  mkTransaction "tx-13" "2024-03-02" (Fin 3) "Food" expense "Snack".

Definition march : list Transaction := [groceries; rent; wages; snack].

End Ledger.

(** * Properties *)

(** ** Lists *)

Section ListFacts.
Context {A B : Type}.

Lemma omap_retract_sublist (f : A -> option B) (g : B -> A) (l : list A) :
  (forall x y, f x = Some y -> g y = x) -> (g <$> omap f l) `sublist_of` l.
Proof.
  intros Hfg. induction l as [|x l IH]; simpl; [constructor|].
  destruct (f x) as [y|] eqn:E; simpl.
  - rewrite (Hfg _ _ E). by constructor.
  - by constructor.
Qed.

Lemma omap_step (f : A -> option B) (x : A) (l : list A) :
  omap f (x :: l)
  = match f x with Some y => y :: omap f l | None => omap f l end.
Proof. reflexivity. Qed.

Lemma NoDup_fmap_elem_inj (f : A -> B) (l : list A) (x y : A) :
  NoDup (f <$> l) -> x ∈ l -> y ∈ l -> f x = f y -> x = y.
Proof.
  induction l as [|z l IH]; simpl; intros Hnd Hx Hy Hf.
  - by apply elem_of_nil in Hx.
  - apply NoDup_cons in Hnd as [Hz Hnd].
    apply elem_of_cons in Hx as [->|Hx]; apply elem_of_cons in Hy as [->|Hy];
      try done.
    + exfalso. apply Hz. rewrite Hf. by apply list_elem_of_fmap_2.
    + exfalso. apply Hz. rewrite <- Hf. by apply list_elem_of_fmap_2.
    + by apply IH.
Qed.

End ListFacts.

(** ** Numbers *)

Section NumFacts.
Lemma num_ltb_Fin a b : num_ltb (Fin a) (Fin b) = true <-> (a < b)%Q.
Proof.
  unfold num_ltb. simpl. rewrite Qlt_alt.
  destruct (a ?= b)%Q; split; congruence.
Qed.

Lemma num_geb_Fin a b : num_geb (Fin a) (Fin b) = true <-> (b <= a)%Q.
Proof.
  unfold num_geb. simpl. destruct (Qcompare_spec a b) as [H|H|H].
  - split; [intros _; rewrite H; apply Qle_refl | done].
  - split; [done | intros H'; exfalso; by apply (Qlt_not_le _ _ H)].
  - split; [intros _; by apply Qlt_le_weak | done].
Qed.

Lemma num_geb_ltb_Fin a b : num_geb (Fin a) (Fin b) = negb (num_ltb (Fin a) (Fin b)).
Proof.
  unfold num_geb, num_ltb. simpl. by destruct (a ?= b)%Q.
Qed.

End NumFacts.

(** ** One comparison run *)

Section MatcherFacts.
Import Matcher.
Variable bank : list BankTransaction.

Lemma visit_matched r u :
  matched (visit bank r u) = matched r ++ omap (matchOf bank) [u].
Proof.
  unfold visit, matchOf. simpl.
  destruct (findBank (isMatching u) bank) as [m|]; simpl; [done|].
  destruct (findBank (isPotentialMismatch u) bank); simpl; by rewrite app_nil_r.
Qed.

Lemma visit_mismatched r u :
  mismatched (visit bank r u) = mismatched r ++ omap (mismatchOf bank) [u].
Proof.
  unfold visit, mismatchOf. simpl.
  destruct (findBank (isMatching u) bank) as [m|]; simpl; [by rewrite app_nil_r|].
  destruct (findBank (isPotentialMismatch u) bank); simpl; by rewrite ?app_nil_r.
Qed.

Lemma visit_userOnly r u :
  userOnly (visit bank r u) =
    match pairedWith bank u with
    | Some _ => dropUser u (userOnly r)
    | None => userOnly r
    end.
Proof.
  unfold visit, pairedWith.
  destruct (findBank (isMatching u) bank) as [m|]; simpl; [done|].
  by destruct (findBank (isPotentialMismatch u) bank).
Qed.

Lemma visit_bankOnly r u :
  bankOnly (visit bank r u) =
    match pairedWith bank u with
    | Some p => dropBank p (bankOnly r)
    | None => bankOnly r
    end.
Proof.
  unfold visit, pairedWith.
  destruct (findBank (isMatching u) bank) as [m|]; simpl; [done|].
  by destruct (findBank (isPotentialMismatch u) bank).
Qed.

(** Past its guard on an empty bank statement, [compareTransactions] is
    one run of [compare]. *)
Lemma compareTransactions_run (us : list Transaction) :
  compareTransactions us [] = None
  /\ forall b bs, compareTransactions us (b :: bs) = Some (compare us (b :: bs)).
Proof. by split. Qed.

Lemma run_matched us : forall r,
  matched (foldl (visit bank) r us) = matched r ++ omap (matchOf bank) us.
Proof.
  induction us as [|u us IH]; intros r; simpl; [by rewrite app_nil_r|].
  rewrite IH, visit_matched. simpl.
  destruct (matchOf bank u); simpl; by rewrite <- ?app_assoc, ?app_nil_r.
Qed.

Lemma run_mismatched us : forall r,
  mismatched (foldl (visit bank) r us)
  = mismatched r ++ omap (mismatchOf bank) us.
Proof.
  induction us as [|u us IH]; intros r; simpl; [by rewrite app_nil_r|].
  rewrite IH, visit_mismatched. simpl.
  destruct (mismatchOf bank u); simpl; by rewrite <- ?app_assoc, ?app_nil_r.
Qed.

Lemma run_userOnly us : forall r,
  userOnly (foldl (visit bank) r us) = filter (survives bank us) (userOnly r).
Proof.
  induction us as [|u us IH]; intros r; simpl.
  - symmetry. induction (userOnly r) as [|t l IHl]; [done|].
    rewrite filter_cons_True; [by rewrite IHl | constructor].
  - rewrite IH, visit_userOnly.
    destruct (pairedWith bank u) as [p|] eqn:E.
    + unfold dropUser. rewrite list_filter_filter.
      apply list_filter_iff. intros t. unfold survives.
      rewrite Forall_cons. rewrite E. split.
      * intros [H1 H2]. split; [by intros _|done].
      * intros [H1 H2]. split; [done|]. by apply H1.
    + apply list_filter_iff. intros t. unfold survives.
      rewrite Forall_cons, E. split; [|by intros [_ ?]].
      intros H. split; [|done]. by intros [? ?].
Qed.

Lemma run_bankOnly_elem us : forall r o,
  o ∈ bankOnly (foldl (visit bank) r us) <-> o ∈ bankOnly r /\ untouched bank us o.
Proof.
  induction us as [|u us IH]; intros r o; simpl.
  - split; [intros ?; split; [done|constructor] | by intros [? _]].
  - rewrite IH, visit_bankOnly. unfold untouched. rewrite Forall_cons.
    destruct (pairedWith bank u) as [p|] eqn:E.
    + unfold dropBank. rewrite list_elem_of_filter. split.
      * intros [[H1 H2] H3]. split; [done|]. split; [|done].
        intros q [= <-]. done.
      * intros [H1 [H2 H3]]. split; [|done]. split; [|done]. by apply H2.
    + split; [intros [? ?]; split; [done|]; split; [|done]; by intros q [=] |].
      by intros [? [_ ?]].
Qed.

Lemma run_bankOnly_sublist us : forall r,
  bankOnly (foldl (visit bank) r us) `sublist_of` bankOnly r.
Proof.
  induction us as [|u us IH]; intros r; simpl; [done|].
  etrans; [apply IH|]. rewrite visit_bankOnly.
  destruct (pairedWith bank u); [apply sublist_filter | done].
Qed.

End MatcherFacts.

Section SearchFacts.
Import Matcher.

Lemma findBank_first p bank o :
  findBank p bank = Some o <-> firstAmongAll p bank o.
Proof.
  unfold findBank, firstAmongAll, ref_slot, ref_record.
  destruct o as [i b]. cbn [fst snd]. rewrite list_find_Some. split.
  - intros (Hi & Hp & Hlt). split_and!; [done|by apply Is_true_true|].
    intros j y Hj Hji. specialize (Hlt j y Hj Hji).
    by destruct (p y); [destruct Hlt|].
  - intros (Hi & Hp & Hlt). split_and!; [done|by apply Is_true_true|].
    intros j y Hj Hji. rewrite (Hlt j y Hj Hji). by intros [].
Qed.

Lemma findBank_None p bank :
  findBank p bank = None <-> forall b, b ∈ bank -> p b = false.
Proof.
  unfold findBank. rewrite list_find_None, Forall_forall. split.
  - intros H b Hb. specialize (H b Hb). by destruct (p b); [destruct H|].
  - intros H b Hb. rewrite (H b Hb). by intros [].
Qed.

Lemma findBank_stored p bank o :
  findBank p bank = Some o -> bank !! ref_slot o = Some (ref_record o).
Proof. intros H. by apply findBank_first in H as (? & _). Qed.

Lemma pairedWith_stored bank u o :
  pairedWith bank u = Some o -> bank !! ref_slot o = Some (ref_record o).
Proof.
  unfold pairedWith. destruct (findBank (isMatching u) bank) eqn:E.
  - intros [= <-]. by eapply findBank_stored.
  - apply findBank_stored.
Qed.

Lemma matchOf_mismatchOf_pairedWith bank u :
  match pairedWith bank u with
  | Some p =>
      (matchOf bank u = Some (u, p) /\ mismatchOf bank u = None)
      \/ (matchOf bank u = None /\ exists reason, mismatchOf bank u = Some (u, p, reason))
  | None => matchOf bank u = None /\ mismatchOf bank u = None
  end.
Proof.
  unfold pairedWith, matchOf, mismatchOf.
  destruct (findBank (isMatching u) bank); simpl; [by left|].
  destruct (findBank (isPotentialMismatch u) bank); simpl; [right|done].
  split; [done|]. by eexists.
Qed.

Lemma elem_of_pairedBank_run bank (us : list Transaction) o :
  o ∈ pairedBank (compare us bank)
  <-> exists u, u ∈ us /\ pairedWith bank u = Some o.
Proof.
  unfold pairedBank, compare. rewrite run_matched, run_mismatched. simpl.
  rewrite elem_of_app, !list_elem_of_fmap. split.
  - intros [(x & -> & Hx)|(x & -> & Hx)].
    + apply list_elem_of_omap in Hx as (u & Hu & Hm). exists u. split; [done|].
      pose proof (matchOf_mismatchOf_pairedWith bank u) as H.
      destruct (pairedWith bank u) as [p|].
      * destruct H as [[H _]|[H _]]; rewrite H in Hm; by simplify_eq.
      * destruct H as [H _]. by rewrite H in Hm.
    + apply list_elem_of_omap in Hx as (u & Hu & Hm). exists u. split; [done|].
      pose proof (matchOf_mismatchOf_pairedWith bank u) as H.
      destruct (pairedWith bank u) as [p|].
      * destruct H as [[_ H]|[_ [reason H]]]; rewrite H in Hm; by simplify_eq.
      * destruct H as [_ H]. by rewrite H in Hm.
  - intros (u & Hu & Hp).
    pose proof (matchOf_mismatchOf_pairedWith bank u) as H. rewrite Hp in H.
    destruct H as [[H _]|[_ [reason H]]].
    + left. exists (u, o). split; [done|]. apply list_elem_of_omap. eauto.
    + right. exists (u, o, reason). split; [done|]. apply list_elem_of_omap. eauto.
Qed.

Lemma slot_claimed_dec bank (us : list Transaction) i :
  (exists u p, u ∈ us /\ pairedWith bank u = Some p /\ ref_slot p = i)
  \/ (forall u p, u ∈ us -> pairedWith bank u = Some p -> ref_slot p <> i).
Proof.
  induction us as [|u us [(v & p & Hv & Hp & Hi)|IH]].
  - right. intros u p Hu. by apply elem_of_nil in Hu.
  - left. exists v, p. split; [by apply elem_of_cons; right|done].
  - destruct (pairedWith bank u) as [p|] eqn:E.
    + destruct (decide (ref_slot p = i)) as [Hi|Hi].
      * left. exists u, p. split; [by apply elem_of_cons; left|done].
      * right. intros v q [->|Hv]%elem_of_cons Hq; [by simplify_eq|by eapply IH].
    + right. intros v q [->|Hv]%elem_of_cons Hq; [by simplify_eq|by eapply IH].
Qed.

Lemma initial_bankOnly_NoDup us bank : NoDup (bankOnly (initial us bank)).
Proof.
  simpl. apply NoDup_alt. intros i j [k b] Hi Hj.
  apply list_lookup_imap_Some in Hi as (? & _ & [= -> _]).
  by apply list_lookup_imap_Some in Hj as (? & _ & [= -> _]).
Qed.

Lemma elem_of_initial_bankOnly us bank o :
  o ∈ bankOnly (initial us bank) <-> bank !! ref_slot o = Some (ref_record o).
Proof.
  simpl. rewrite elem_of_lookup_imap. destruct o as [i b]; simpl. split.
  - by intros (j & y & [= -> ->] & H).
  - intros H. by exists i, b.
Qed.

Lemma survivors_count bank (us l : list Transaction) :
  NoDup (tx_id <$> us) -> l ⊆ us ->
  (length (omap (matchOf bank) l) + length (omap (mismatchOf bank) l)
   + length (filter (survives bank us) l) = length l)%nat.
Proof.
  intros Hnd. induction l as [|x l IH]; intros Hsub; [done|].
  assert (x ∈ us) as Hx by (apply Hsub; by left).
  assert (l ⊆ us) as Hl by (intros y Hy; apply Hsub; by right).
  specialize (IH Hl).
  pose proof (matchOf_mismatchOf_pairedWith bank x) as H.
  destruct (pairedWith bank x) as [p|] eqn:E.
  - rewrite filter_cons_False; cycle 1.
    { intros Hs. unfold survives in Hs. rewrite Forall_forall in Hs.
      by apply (Hs x Hx). }
    destruct H as [[H1 H2]|[H1 [reason H2]]];
      rewrite !omap_step, H1, H2; simpl; lia.
  - destruct H as [H1 H2]. rewrite filter_cons_True; cycle 1.
    { unfold survives. apply Forall_forall. intros u Hu [q Hq] Hid.
      assert (x = u) as -> by (by eapply NoDup_fmap_elem_inj).
      by rewrite E in Hq. }
    rewrite !omap_step, H1, H2. simpl. lia.
Qed.

End SearchFacts.

Section ToleranceFacts.
Import Matcher.

Lemma amountGap_Fin u b a c :
  tx_amount u = Fin a -> bank_amount b = Fin c ->
  amountGap u b = Fin (Qabs (a - c)).
Proof. unfold amountGap. by intros -> ->. Qed.

Lemma amountMatch_Fin u b a c :
  tx_amount u = Fin a -> bank_amount b = Fin c ->
  (amountMatch u b = true <-> (Qabs (a - c) < 1 # 100)%Q).
Proof.
  intros Ha Hc. unfold amountMatch, tolerance.
  rewrite (amountGap_Fin _ _ _ _ Ha Hc). apply num_ltb_Fin.
Qed.

Lemma reasonOf_Fin u b a c :
  tx_amount u = Fin a -> bank_amount b = Fin c ->
  ((1 # 100 <= Qabs (a - c))%Q -> reasonOf u b = amount_mismatch)
  /\ ((Qabs (a - c) < 1 # 100)%Q -> reasonOf u b = type_mismatch).
Proof.
  intros Ha Hc. unfold reasonOf, tolerance.
  rewrite (amountGap_Fin _ _ _ _ Ha Hc). split; intros H.
  - apply num_geb_Fin in H. by rewrite H.
  - rewrite num_geb_ltb_Fin. apply num_ltb_Fin in H. by rewrite H.
Qed.

Lemma dateMatch_eq u b : dateMatch u b = true <-> tx_date u = bank_date b.
Proof. apply String.eqb_eq. Qed.

(** With finite amounts, a record that shares the date of [u] and is not
    an exact match is a potential mismatch. *)
Lemma not_matching_is_mismatch u b :
  is_finite (tx_amount u) -> is_finite (bank_amount b) ->
  isMatching u b = false ->
  isPotentialMismatch u b = dateMatch u b.
Proof.
  unfold isMatching, isPotentialMismatch, amountMatch, tolerance, amountGap.
  destruct (tx_amount u) as [| |a]; [done..|].
  destruct (bank_amount b) as [| |c]; [done..|]. intros _ _. simpl num_abs.
  rewrite num_geb_ltb_Fin.
  destruct (num_ltb _ _), (dateMatch u b), (typeMatch u b); simpl; congruence.
Qed.

Lemma findBank_singleton p b :
  findBank p [b] = if p b then Some (0%nat, b) else None.
Proof. unfold findBank. simpl. by destruct (p b). Qed.

End ToleranceFacts.

(** ** The matcher's claims *)

Section MatcherClaims.
Import Matcher Samples.

(** C1, as stated, fails: two user transactions with distinct ids, the same
    date, amount and direction, and one bank record.  Both are matched with
    that one record, which then occurs twice in [matched]. *)
Lemma conservation_fails_twice_matched :
  occurrences (compare [twinA; twinB] [cardPayment]) 0 = 2%nat
  /\ occurrences (compare [twinA; twinB] [cardPayment]) 0 <> 1%nat.
Proof. split; [vm_compute; reflexivity | vm_compute; discriminate]. Qed.

(** C1 (amended).  For user transactions with pairwise distinct ids,
    [|matched| + |mismatched| + |userOnly| = |userTxs|].  Every bank record
    of the input is either in [bankOnly], or held by at least one pair of
    [matched] or [mismatched], and never both; [bankOnly] holds no record
    twice, and the buckets hold records of the input only.  How many pairs
    hold one bank record is not bounded. *)
Theorem conservation (uts : list Transaction) (bts : list BankTransaction) :
  let r := compare uts bts in
  (NoDup (tx_id <$> uts) ->
     (length (matched r) + length (mismatched r) + length (userOnly r)
      = length uts)%nat)
  /\ (forall i b, bts !! i = Some b ->
        ((i, b) ∈ bankOnly r /\ ((i, b) ∉ pairedBank r))
        \/ (((i, b) ∉ bankOnly r) /\ (i, b) ∈ pairedBank r))
  /\ NoDup (bankOnly r)
  /\ (forall o, o ∈ pairedBank r ++ bankOnly r ->
        bts !! ref_slot o = Some (ref_record o)).
Proof.
  intros r. split_and!.
  - intros Hnd. subst r. unfold compare.
    rewrite run_matched, run_mismatched, run_userOnly. simpl.
    by apply survivors_count.
  - intros i b Hib. subst r.
    destruct (slot_claimed_dec bts uts i) as [(u & p & Hu & Hp & Hi)|Hfree].
    + right. assert (p = (i, b)) as ->.
      { apply pairedWith_stored in Hp. rewrite Hi, Hib in Hp.
        destruct p; simpl in *; by simplify_eq. }
      split; [|apply elem_of_pairedBank_run; eauto].
      unfold compare. rewrite run_bankOnly_elem. intros [_ Hun].
      unfold untouched in Hun. rewrite Forall_forall in Hun.
      by apply (Hun u Hu _ Hp).
    + left. split.
      * unfold compare. apply run_bankOnly_elem. split.
        { by apply elem_of_initial_bankOnly. }
        apply Forall_forall. intros u Hu p Hp. simpl.
        intros ->. by eapply Hfree.
      * rewrite elem_of_pairedBank_run. intros (u & Hu & Hp).
        by eapply Hfree.
  - subst r. unfold compare.
    eapply (sublist_NoDup _ (bankOnly (initial uts bts)));
      [apply initial_bankOnly_NoDup | apply run_bankOnly_sublist].
  - intros o [Ho|Ho]%elem_of_app; subst r.
    + apply elem_of_pairedBank_run in Ho as (u & _ & Hp).
      by eapply pairedWith_stored.
    + unfold compare in Ho. apply run_bankOnly_elem in Ho as [Ho _].
      by apply elem_of_initial_bankOnly in Ho.
Qed.

Lemma conservation_witness :
  let r := compare [twinA; twinB] [cardPayment] in
  NoDup (tx_id <$> [twinA; twinB])
  /\ (length (matched r) + length (mismatched r) + length (userOnly r) = 2)%nat.
Proof.
  assert (NoDup (tx_id <$> [twinA; twinB])) as Hnd.
  { apply (bool_decide_unpack _). vm_compute. exact I. }
  split; [exact Hnd|].
  exact (proj1 (conservation [twinA; twinB] [cardPayment]) Hnd).
Defined.

(** C2, as stated, fails: the bank record paired with the first user
    transaction is paired again with the second one. *)
Lemma unconsumed_pool_fails_shared_record :
  ~ NoDup (ref_slot <$> pairedBank (compare [twinA; twinB] [cardPayment])).
Proof.
  vm_compute. intros H. apply NoDup_cons in H as [H _].
  apply H. constructor.
Qed.

(** C2 (amended).  Each user transaction, in input order, searches the
    whole bank-record array, whatever earlier user transactions were paired
    with: the pairs of [matched] and [mismatched] are those each user
    transaction finds on its own, a matched record is the first of all bank
    records, in their original order, that matches exactly, and a mismatched
    record is the first of all bank records that satisfies the mismatch
    condition, found only when no record matches exactly. *)
Theorem search_whole_array (uts : list Transaction) (bts : list BankTransaction) :
  let r := compare uts bts in
  matched r = omap (matchOf bts) uts
  /\ mismatched r = omap (mismatchOf bts) uts
  /\ (forall u m, (u, m) ∈ matched r -> firstAmongAll (isMatching u) bts m)
  /\ (forall u p reason, (u, p, reason) ∈ mismatched r ->
        (forall b, b ∈ bts -> isMatching u b = false)
        /\ firstAmongAll (isPotentialMismatch u) bts p).
Proof.
  intros r. subst r. unfold compare.
  rewrite run_matched, run_mismatched. simpl. split_and!; [done..| |].
  - intros u m (v & _ & Hm)%list_elem_of_omap. unfold matchOf in Hm.
    destruct (findBank (isMatching v) bts) as [q|] eqn:E; simplify_eq/=.
    by apply findBank_first.
  - intros u p reason (v & _ & Hm)%list_elem_of_omap. unfold mismatchOf in Hm.
    destruct (findBank (isMatching v) bts) as [q|] eqn:E; [done|].
    destruct (findBank (isPotentialMismatch v) bts) as [q|] eqn:E'; simplify_eq/=.
    split; [by apply findBank_None | by apply findBank_first].
Qed.

Lemma search_whole_array_witness :
  firstAmongAll (isMatching twinB) [cardPayment] (0%nat, cardPayment).
Proof.
  destruct (search_whole_array [twinA; twinB] [cardPayment]) as (_ & _ & H & _).
  apply H. vm_compute. repeat constructor.
Defined.

(** C10.  The four sequences of a result keep the input order: the user
    transactions of [matched], those of [mismatched], and [userOnly] are
    subsequences of the user transactions; [bankOnly] is a subsequence of
    the bank records, slot by slot. *)
Theorem order_preserved (uts : list Transaction) (bts : list BankTransaction) :
  let r := compare uts bts in
  (fst <$> matched r) `sublist_of` uts
  /\ ((fun t => fst (fst t)) <$> mismatched r) `sublist_of` uts
  /\ userOnly r `sublist_of` uts
  /\ bankOnly r `sublist_of` imap (fun i b => (i, b)) bts
  /\ (ref_record <$> bankOnly r) `sublist_of` bts.
Proof.
  intros r. subst r. unfold compare.
  rewrite run_matched, run_mismatched, run_userOnly. simpl. split_and!.
  - apply omap_retract_sublist. intros u [v m] H. unfold matchOf in H.
    destruct (findBank (isMatching u) bts); by simplify_eq/=.
  - apply omap_retract_sublist. intros u [[v m] reason] H.
    unfold mismatchOf in H.
    destruct (findBank (isMatching u) bts); [done|].
    destruct (findBank (isPotentialMismatch u) bts); by simplify_eq/=.
  - apply sublist_filter.
  - apply run_bankOnly_sublist.
  - assert (bts = ref_record <$> imap (fun i b => (i, b)) bts) as Hb.
    { apply list_eq. intros i.
      rewrite list_lookup_fmap, list_lookup_imap. by destruct (bts !! i). }
    pose proof (run_bankOnly_sublist bts uts (initial uts bts)) as Hs.
    apply (fmap_sublist ref_record) in Hs. simpl in Hs.
    by rewrite <- Hb in Hs.
Qed.




(** C9.  With finite amounts [a] and [c], a bank record is an exact match
    exactly when [|a - c| < 0.01] and date and direction agree.  For a pair
    that agrees on date and direction: a difference below 0.01, such as
    0.009, gives a match; a difference of at least 0.01, such as 0.011,
    gives no match but a mismatch of reason [amount_mismatch]. *)
Theorem tolerance_boundary (u : Transaction) (b : BankTransaction) (a c : Q) :
  tx_amount u = Fin a -> bank_amount b = Fin c ->
  (isMatching u b = true
     <-> (Qabs (a - c) < 1 # 100)%Q /\ tx_date u = bank_date b
         /\ typeMatch u b = true)
  /\ (tx_date u = bank_date b -> typeMatch u b = true ->
        ((Qabs (a - c) < 1 # 100)%Q ->
           compare [u] [b]
           = {| matched := [(u, (0%nat, b))]; userOnly := []; bankOnly := [];
                mismatched := [] |})
        /\ ((1 # 100 <= Qabs (a - c))%Q ->
              compare [u] [b]
              = {| matched := []; userOnly := []; bankOnly := [];
                   mismatched := [(u, (0%nat, b), amount_mismatch)] |})
        /\ ((Qabs (a - c) == 9 # 1000)%Q ->
              matched (compare [u] [b]) = [(u, (0%nat, b))]
              /\ mismatched (compare [u] [b]) = [])
        /\ ((Qabs (a - c) == 11 # 1000)%Q ->
              matched (compare [u] [b]) = []
              /\ mismatched (compare [u] [b])
                 = [(u, (0%nat, b), amount_mismatch)])).
Proof.
  intros Ha Hc.
  split.
  - unfold isMatching. rewrite !andb_true_iff.
    rewrite (amountMatch_Fin _ _ _ _ Ha Hc), dateMatch_eq. tauto.
  - intros Hdate Htm. apply dateMatch_eq in Hdate.
    assert ((Qabs (a - c) < 1 # 100)%Q ->
      compare [u] [b]
      = {| matched := [(u, (0%nat, b))]; userOnly := []; bankOnly := [];
           mismatched := [] |}) as Hin.
    { intros Hgap. apply (amountMatch_Fin _ _ _ _ Ha Hc) in Hgap.
      unfold compare. simpl. unfold visit. rewrite findBank_singleton.
      unfold isMatching. rewrite Hgap, Hdate, Htm. simpl.
      unfold dropUser, dropBank. simpl.
      rewrite !filter_cons_False, !filter_nil by (intros H; by apply H). done. }
    assert ((1 # 100 <= Qabs (a - c))%Q ->
      compare [u] [b]
      = {| matched := []; userOnly := []; bankOnly := [];
           mismatched := [(u, (0%nat, b), amount_mismatch)] |}) as Hout.
    { intros Hgap. pose proof Hgap as Hge.
      apply num_geb_Fin in Hge.
      assert (amountMatch u b = false) as Ham.
      { unfold amountMatch, tolerance. rewrite (amountGap_Fin _ _ _ _ Ha Hc).
        rewrite num_geb_ltb_Fin in Hge. by destruct (num_ltb _ _). }
      unfold compare. simpl. unfold visit. rewrite !findBank_singleton.
      unfold isMatching, isPotentialMismatch. rewrite Ham, Hdate. simpl.
      unfold tolerance. rewrite (amountGap_Fin _ _ _ _ Ha Hc), Hge. simpl.
      destruct (reasonOf_Fin _ _ _ _ Ha Hc) as [-> _]; [|done].
      unfold dropUser, dropBank. simpl.
      rewrite !filter_cons_False, !filter_nil by (intros H; by apply H). done. }
    split_and!; [done..| |].
    + intros Hgap. rewrite Hin; [done|]. by rewrite Hgap.
    + intros Hgap. rewrite Hout; [done|]. by rewrite Hgap.
Qed.

Lemma tolerance_boundary_witness :
  (matched (compare [nearby] [cardPayment]) = [(nearby, (0%nat, cardPayment))]
   /\ mismatched (compare [nearby] [cardPayment]) = [])
  /\ (matched (compare [distant] [cardPayment]) = []
      /\ mismatched (compare [distant] [cardPayment])
         = [(distant, (0%nat, cardPayment), amount_mismatch)]).
Proof.
  split.
  - destruct (tolerance_boundary nearby cardPayment (50009 # 1000) (50 # 1)
                eq_refl eq_refl) as [_ H].
    destruct (H eq_refl eq_refl) as (_ & _ & H9 & _).
    apply H9. reflexivity.
  - destruct (tolerance_boundary distant cardPayment (50011 # 1000) (50 # 1)
                eq_refl eq_refl) as [_ H].
    destruct (H eq_refl eq_refl) as (_ & _ & _ & H11).
    apply H11. reflexivity.
Defined.

End MatcherClaims.

(** ** Strings *)

Section StringFacts.
Import JS.

Lemma prefix_char c s :
  String.prefix (String c EmptyString) s = true <-> exists r, s = String c r.
Proof.
  destruct s as [|d r]; simpl.
  - split; [intros H; discriminate H | intros [r H]; discriminate H].
  - destruct (ascii_dec c d) as [->|Hne].
    + split; [eauto | intros _]. by destruct r.
    + split; [intros H; discriminate H | intros [? [= ? ?]]; done].
Qed.

Lemma includes_char c s :
  includes s (String c EmptyString) = true
  <-> exists a b, s = a +:+ String c b.
Proof.
  induction s as [|d r IH].
  - simpl. split; [done|]. intros (a & b & H). by destruct a.
  - cbn [includes]. rewrite orb_true_iff, IH, prefix_char. split.
    + intros [[r' [= -> ->]]|(a & b & ->)].
      * by exists EmptyString, r'.
      * by exists (String d a), b.
    + intros (a & b & H). destruct a as [|e a]; simpl in H.
      * left. injection H as -> ->. eauto.
      * right. injection H as -> ->. eauto.
Qed.

Lemma append_empty_r (s : string) : s +:+ EmptyString = s.
Proof.
  induction s as [|c r IH]; [done|].
  change (String c (r +:+ EmptyString) = String c r). by rewrite IH.
Qed.

Lemma app_assoc_string (a b c : string) : (a +:+ b) +:+ c = a +:+ (b +:+ c).
Proof.
  induction a as [|d a IH]; [done|].
  change (String d ((a +:+ b) +:+ c) = String d (a +:+ (b +:+ c))).
  by rewrite IH.
Qed.

Lemma rev_app_allSpace s1 s2 :
  allSpace (String.rev_app s1 s2) = allSpace s1 && allSpace s2.
Proof.
  revert s2. induction s1 as [|c r IH]; intros s2; simpl; [done|].
  rewrite IH. simpl. by destruct (is_space c), (allSpace r), (allSpace s2).
Qed.

Lemma rev_allSpace s : allSpace (String.rev s) = allSpace s.
Proof. unfold String.rev. rewrite rev_app_allSpace. simpl. apply andb_true_r. Qed.

Lemma rev_app_empty s1 s2 :
  String.rev_app s1 s2 = EmptyString -> s1 = EmptyString /\ s2 = EmptyString.
Proof.
  revert s2. induction s1 as [|c r IH]; intros s2; simpl; [done|].
  intros H. by apply IH in H as [_ ?].
Qed.

Lemma trimStart_empty s : trimStart s = EmptyString <-> allSpace s = true.
Proof.
  induction s as [|c r IH]; simpl; [done|].
  destruct (is_space c); simpl; [done|]. split; discriminate.
Qed.

Lemma trimStart_allSpace s : allSpace (trimStart s) = allSpace s.
Proof.
  induction s as [|c r IH]; simpl; [done|].
  destruct (is_space c) eqn:E; simpl; [done|]. by rewrite E.
Qed.

Lemma trim_empty s : trim s = EmptyString <-> allSpace s = true.
Proof.
  unfold trim, trimEnd. split.
  - intros H. unfold String.rev in H at 1. apply rev_app_empty in H as [H _].
    apply trimStart_empty in H. rewrite rev_allSpace, trimStart_allSpace in H.
    done.
  - intros H. apply trimStart_empty in H. rewrite H. reflexivity.
Qed.

Lemma split_nonempty sep s : exists piece pieces, split sep s = piece :: pieces.
Proof.
  induction s as [|c r (p & ps & IH)]; simpl; [eauto|].
  destruct (Ascii.eqb c sep); [eauto|]. rewrite IH. eauto.
Qed.

Lemma blank_lines_allSpace s :
  Forall (fun l => allSpace l = true) (split newline s) -> allSpace s = true.
Proof.
  induction s as [|c r IH]; simpl; [done|].
  destruct (Ascii.eqb c newline) eqn:E.
  - apply Ascii.eqb_eq in E as ->. intros H. apply Forall_cons in H as [_ H].
    by rewrite IH.
  - destruct (split_nonempty newline r) as (p & ps & Hs). rewrite Hs in *.
    intros H. apply Forall_cons in H as [Hp H]. simpl in Hp.
    apply andb_true_iff in Hp as [-> Hp]. simpl. apply IH. by constructor.
Qed.

End StringFacts.

(** ** Characters of the cells *)

Section CharFacts.
Import JS Chars.

Lemma hasChar_contains c s : hasChar c s = true <-> contains c s.
Proof.
  unfold contains. induction s as [|d r IH]; simpl.
  - split; [done|]. intros (a & b & H). by destruct a.
  - rewrite orb_true_iff, IH, Ascii.eqb_eq. split.
    + intros [->|(a & b & ->)]; [by exists EmptyString, r|].
      by exists (String d a), b.
    + intros (a & b & H). destruct a as [|e a]; simpl in H.
      * left. by injection H.
      * right. injection H as -> ->. eauto.
Qed.

Lemma includes_hasChar c s :
  includes s (String c EmptyString) = hasChar c s.
Proof.
  apply eq_true_iff_eq. by rewrite includes_char, hasChar_contains.
Qed.

Lemma hasChar_app c a b : hasChar c (a +:+ b) = hasChar c a || hasChar c b.
Proof.
  induction a as [|d a IH]; simpl; [done|]. rewrite IH. apply orb_assoc.
Qed.

Lemma hasChar_rev_app c s1 s2 :
  hasChar c (String.rev_app s1 s2) = hasChar c s1 || hasChar c s2.
Proof.
  revert s2. induction s1 as [|d r IH]; intros s2; simpl; [done|].
  rewrite IH. simpl.
  by destruct (Ascii.eqb d c), (hasChar c r), (hasChar c s2).
Qed.

Lemma hasChar_rev c s : hasChar c (String.rev s) = hasChar c s.
Proof. unfold String.rev. rewrite hasChar_rev_app. simpl. apply orb_false_r. Qed.

Lemma hasChar_trimStart c s :
  hasChar c s = false -> hasChar c (trimStart s) = false.
Proof.
  induction s as [|d r IH]; simpl; [done|].
  intros [H1 H2]%orb_false_iff. destruct (is_space d); [by apply IH|].
  simpl. by rewrite H1, H2.
Qed.

Lemma hasChar_trim c s : hasChar c s = false -> hasChar c (trim s) = false.
Proof.
  intros H. unfold trim, trimEnd. rewrite hasChar_rev.
  apply hasChar_trimStart. rewrite hasChar_rev. by apply hasChar_trimStart.
Qed.

Lemma hasChar_stripQuotes c s :
  hasChar c s = false -> hasChar c (stripQuotes s) = false.
Proof.
  induction s as [|d r IH]; simpl; [done|].
  intros [H1 H2]%orb_false_iff. destruct (Ascii.eqb d quote); [by apply IH|].
  simpl. by rewrite H1, IH.
Qed.

Lemma stripQuotes_clean s : hasChar quote (stripQuotes s) = false.
Proof.
  induction s as [|d r IH]; simpl; [done|].
  destruct (Ascii.eqb d quote) eqn:E; [done|]. simpl. by rewrite E.
Qed.

Lemma split_pieces sep c s :
  Forall (fun piece => hasChar sep piece = false
                       /\ (hasChar c s = false -> hasChar c piece = false))
         (split sep s).
Proof.
  induction s as [|d r IH]; simpl.
  - by repeat constructor.
  - destruct (Ascii.eqb d sep) eqn:E.
    + constructor; [done|]. eapply Forall_impl; [exact IH|].
      intros p [H1 H2]. split; [done|].
      intros [_ H]%orb_false_iff. by apply H2.
    + destruct (split sep r) as [|p ps].
      * constructor; [|constructor]. simpl. rewrite E. split; [done|].
        intros [-> _]%orb_false_iff. done.
      * apply Forall_cons in IH as [[H1 H2] IH]. constructor.
        { simpl. rewrite E, H1. split; [done|].
          intros [-> H]%orb_false_iff. simpl. by apply H2. }
        eapply Forall_impl; [exact IH|]. intros q [H3 H4]. split; [done|].
        intros [_ H]%orb_false_iff. by apply H4.
Qed.

Lemma split_plain sep s : hasChar sep s = false -> split sep s = [s].
Proof.
  induction s as [|d r IH]; simpl; [done|].
  intros [H1 H2]%orb_false_iff. rewrite H1, (IH H2). done.
Qed.

Lemma split_at sep a b :
  hasChar sep a = false -> split sep (a +:+ String sep b) = a :: split sep b.
Proof.
  induction a as [|d a IH]; simpl.
  - intros _. by rewrite Ascii.eqb_refl.
  - intros [H1 H2]%orb_false_iff. by rewrite H1, (IH H2).
Qed.

Lemma cells_clean delimiter line (cell : string) :
  cell ∈ cells delimiter line ->
  hasChar quote cell = false
  /\ hasChar delimiter cell = false
  /\ (hasChar newline line = false -> hasChar newline cell = false).
Proof.
  unfold cells. intros (piece & -> & Hp)%list_elem_of_fmap.
  pose proof (split_pieces delimiter newline line) as H.
  rewrite Forall_forall in H. destruct (H piece Hp) as [H1 H2].
  split_and!.
  - apply stripQuotes_clean.
  - by apply hasChar_stripQuotes, hasChar_trim.
  - intros Hl. by apply hasChar_stripQuotes, hasChar_trim, H2.
Qed.

Lemma lines_clean text (line : string) :
  line ∈ split newline text -> hasChar newline line = false.
Proof.
  intros Hl. pose proof (split_pieces newline newline text) as H.
  rewrite Forall_forall in H. by destruct (H line Hl).
Qed.

Lemma item_elem {A : Type} (l : list A) (i : Z) (x : A) :
  item l i = Some x -> x ∈ l.
Proof.
  unfold item. destruct (i <? 0)%Z; [done|]. apply list_elem_of_lookup_2.
Qed.

End CharFacts.

(** ** The ingestor *)

Section IngestFacts.
Import JS.
Variable Date_isoDay : string -> option string.

Lemma findIndex_bounds {A : Type} (p : A -> bool) (l : list A) :
  (-1 <= findIndex p l < Z.of_nat (length l))%Z.
Proof.
  unfold findIndex. destruct (list_find _ l) as [[i x]|] eqn:E; [|lia].
  apply list_find_Some in E as (Hi & _). apply lookup_lt_Some in Hi. lia.
Qed.

Lemma item_defined {A : Type} (l : list A) (i : Z) :
  (0 <= i < Z.of_nat (length l))%Z -> exists x, item l i = Some x.
Proof.
  intros [H0 H1]. unfold item.
  destruct (Z.ltb_spec i 0) as [?|_]; [lia|].
  apply lookup_lt_is_Some_2. lia.
Qed.

Lemma columnsOf_bounds h :
  let c := columnsOf h in
  (-1 <= dateIndex c /\ -1 <= descIndex c /\ -1 <= amountIndex c
   /\ -1 <= typeIndex c)%Z.
Proof.
  simpl. unfold columnsOf, locate. simpl.
  repeat split; apply findIndex_bounds.
Qed.

Lemma missingRequired_false c :
  missingRequired c = false
  <-> dateIndex c <> (-1)%Z /\ descIndex c <> (-1)%Z /\ amountIndex c <> (-1)%Z.
Proof.
  unfold missingRequired. rewrite !orb_false_iff, !Z.eqb_neq. tauto.
Qed.

Lemma missingRequired_true c :
  missingRequired c = true
  <-> dateIndex c = (-1)%Z \/ descIndex c = (-1)%Z \/ amountIndex c = (-1)%Z.
Proof.
  unfold missingRequired. rewrite !orb_true_iff, !Z.eqb_eq. tauto.
Qed.

End IngestFacts.

Section RowFacts.
Import JS.
Variable Date_isoDay : string -> option string.
Variable delimiter : ascii.
Variable c : Columns.
Hypothesis Hdate : (0 <= dateIndex c)%Z.
Hypothesis Hdesc : (0 <= descIndex c)%Z.
Hypothesis Hamount : (0 <= amountIndex c)%Z.
Hypothesis Htype : (-1 <= typeIndex c)%Z.

Local Abbreviation readRow := (parseRow Date_isoDay delimiter c).
Local Abbreviation recordOf := (rowRecord Date_isoDay delimiter c).
Local Abbreviation dateOf := (formatDate Date_isoDay).

Local Abbreviation amountOf := (storedAmount delimiter c).

Lemma parseRow_skipped line :
  blankLine line \/ tooFewColumns delimiter c line -> readRow line = Ok None.
Proof.
  unfold blankLine, tooFewColumns, parseRow. intros [H|H].
  - rewrite H. simpl. by rewrite orb_true_r.
  - apply Z.leb_le in H. by rewrite H.
Qed.

Lemma parseRow_shape line :
  ~ blankLine line -> ~ tooFewColumns delimiter c line ->
  exists desc type,
    readRow line
    = Ok (if String.eqb (dateOf (dateCellOf delimiter c line)) invalidDate
          then None
          else Some {| bank_date := dateOf (dateCellOf delimiter c line);
                       bank_description := desc;
                       bank_amount := amountOf line;
                       bank_type := type |}).
Proof.
  unfold blankLine, tooFewColumns, storedAmount, dateCellOf, amountCellOf.
  intros Hb Hc. unfold parseRow.
  assert ((Z.of_nat (length (cells delimiter line)) <=? lastIndex c)%Z
          || String.eqb (trim line) EmptyString = false) as ->.
  { apply orb_false_iff. split; [by apply Z.leb_gt; lia|].
    by apply String.eqb_neq. }
  assert (lastIndex c < Z.of_nat (length (cells delimiter line)))%Z as Hlen by lia.
  unfold lastIndex in Hlen.
  destruct (item_defined (cells delimiter line) (amountIndex c)) as [a ->]; [lia|].
  destruct (item_defined (cells delimiter line) (dateIndex c)) as [dt ->]; [lia|].
  destruct (item_defined (cells delimiter line) (descIndex c)) as [ds Hds]; [lia|].
  simpl. destruct (typeIndex c =? -1)%Z eqn:Et; simpl.
  - rewrite Hds. simpl.
    destruct (String.eqb (dateOf dt) invalidDate); simpl;
      [by exists ds, debit | eauto].
  - apply Z.eqb_neq in Et. simpl in Hlen.
    destruct (item_defined (cells delimiter line) (typeIndex c)) as [ty ->]; [lia|].
    simpl. rewrite Hds. simpl.
    destruct (String.eqb (dateOf dt) invalidDate); simpl;
      [by exists ds, debit | eauto].
Qed.

Lemma skipped_or_read line :
  (blankLine line \/ tooFewColumns delimiter c line)
  \/ (~ blankLine line /\ ~ tooFewColumns delimiter c line).
Proof.
  unfold blankLine, tooFewColumns.
  destruct (decide (trim line = EmptyString)); [by left; left|].
  destruct (decide (Z.of_nat (length (cells delimiter line)) <= lastIndex c)%Z);
    [by left; right | by right].
Qed.

Lemma parseRow_total line : exists t, readRow line = Ok t.
Proof.
  destruct (skipped_or_read line) as [Hs|[Hb Hc]].
  { rewrite parseRow_skipped; eauto. }
  destruct (parseRow_shape line Hb Hc) as (desc & type & ->). eauto.
Qed.

Lemma storedAmount_NaN line :
  amountOf line = NaN <-> unparsableAmount delimiter c line.
Proof.
  unfold storedAmount, unparsableAmount.
  destruct (negb _); [done|].
  by destruct (parseAmount _).
Qed.

Lemma rowRecord_dropped line :
  defective Date_isoDay delimiter c line -> recordOf line = None.
Proof.
  unfold rowRecord. intros Hd.
  destruct (skipped_or_read line) as [Hs|[Hb Hc]].
  { rewrite parseRow_skipped; eauto. }
  destruct (parseRow_shape line Hb Hc) as (desc & type & ->).
  destruct Hd as [?|[?|[Hd|Hd]]]; [done..| |].
  - unfold invalidDateRow in Hd. rewrite Hd. by rewrite String.eqb_refl.
  - apply storedAmount_NaN in Hd. rewrite Hd.
    by destruct (String.eqb _ _).
Qed.

Lemma rowRecord_kept line :
  ~ defective Date_isoDay delimiter c line ->
  exists desc type,
    recordOf line
    = Some {| bank_date := dateOf (dateCellOf delimiter c line);
              bank_description := desc;
              bank_amount := amountOf line;
              bank_type := type |}.
Proof.
  unfold rowRecord, defective. intros Hd.
  destruct (parseRow_shape line) as (desc & type & ->); [tauto..|].
  exists desc, type.
  assert (String.eqb (dateOf (dateCellOf delimiter c line)) invalidDate
          = false) as ->.
  { apply String.eqb_neq. unfold invalidDateRow in Hd. tauto. }
  simpl. assert (amountOf line <> NaN) as Hn.
  { rewrite storedAmount_NaN. tauto. }
  by destruct (amountOf line).
Qed.

Lemma mapM_parseRow (dataLines : list string) :
  exists rows,
    mapM readRow dataLines = Ok rows
    /\ omap keepRow rows = omap recordOf dataLines.
Proof.
  induction dataLines as [|line l (rows & IH1 & IH2)]; simpl.
  - by exists [].
  - destruct (parseRow_total line) as [t Ht].
    rewrite Ht, IH1. simpl. exists (t :: rows). split; [done|].
    rewrite !omap_step, IH2. unfold rowRecord at 1 3. by rewrite Ht.
Qed.

End RowFacts.

(** ** The header line *)

Section HeaderFacts.
Import JS Chars Header.

Lemma prefix_append (w s : string) :
  String.prefix w s = true <-> exists b, s = w +:+ b.
Proof.
  revert s. induction w as [|c w IH]; intros s.
  - split; [intros _; by exists s | intros _; by destruct s].
  - destruct s as [|d r]; simpl.
    + split; [intros H; discriminate H | intros [b H]; discriminate H].
    + destruct (ascii_dec c d) as [->|Hne].
      * rewrite IH. split; [intros [b ->]; by exists b|].
        intros [b H]. exists b.
        change (String d r = String d (w +:+ b)) in H. by injection H.
      * split; [intros H; discriminate H|]. intros [b H].
        change (String d r = String c (w +:+ b)) in H. injection H as -> _. done.
Qed.

Lemma includes_mentions (s w : string) :
  includes s w = true <-> mentions w s.
Proof.
  unfold mentions. split.
  - induction s as [|d r IH].
    + cbn [includes]. rewrite orb_false_r. intros [b H]%prefix_append.
      by exists EmptyString, b.
    + cbn [includes]. intros [[b H]%prefix_append|H]%orb_true_iff.
      * by exists EmptyString, b.
      * destruct (IH H) as (a & b & ->). by exists (String d a), b.
  - intros (a & b & ->). induction a as [|e a IH].
    + assert (String.prefix w (w +:+ b) = true) as Hp
        by (apply prefix_append; eauto).
      change (EmptyString +:+ w +:+ b) with (w +:+ b).
      destruct (w +:+ b); cbn [includes]; by rewrite Hp.
    + change (String e a +:+ w +:+ b) with (String e (a +:+ w +:+ b)).
      cbn [includes]. rewrite IH. apply orb_true_r.
Qed.

Lemma isDateHeader_names cell : isDateHeader cell = true <-> namesDate cell.
Proof.
  unfold isDateHeader, namesDate. by rewrite orb_true_iff, !includes_mentions.
Qed.

Lemma isDescHeader_names cell : isDescHeader cell = true <-> namesDescription cell.
Proof.
  unfold isDescHeader, namesDescription.
  rewrite !orb_true_iff, !includes_mentions. tauto.
Qed.

Lemma isAmountHeader_names cell : isAmountHeader cell = true <-> namesAmount cell.
Proof.
  unfold isAmountHeader, namesAmount. by rewrite orb_true_iff, !includes_mentions.
Qed.

Lemma findIndex_firstNaming (p : string -> bool) (names : string -> Prop)
    (l : list string) :
  (forall cell, p cell = true <-> names cell) ->
  firstNaming names l (findIndex p l).
Proof.
  intros Hp. unfold firstNaming, findIndex.
  destruct (list_find _ l) as [[n cell]|] eqn:E.
  - right. apply list_find_Some in E as (Hn & Hc & Hbefore).
    exists n, cell. split_and!; [done|done|by apply Hp, Is_true_true|].
    intros j cell' Hj Hlt Hnames. apply (Hbefore j cell' Hj Hlt).
    by apply Is_true_true, Hp.
  - left. split; [done|]. apply list_find_None in E.
    rewrite Forall_forall in E. intros cell Hc Hnames.
    apply (E cell Hc). by apply Is_true_true, Hp.
Qed.

Lemma firstNaming_missing (names : string -> Prop) (l : list string) (i : Z) :
  firstNaming names l i ->
  i = (-1)%Z <-> ~ exists cell, cell ∈ l /\ names cell.
Proof.
  intros [[-> Hno]|(n & cell & -> & Hn & Hc & _)].
  - split; [|done]. intros _ (cell & Hc & Hnames). by apply (Hno cell).
  - split; [lia|]. intros Hno. exfalso. apply Hno. exists cell.
    split; [by eapply list_elem_of_lookup_2|done].
Qed.

Lemma concat_split sep s :
  s = String.concat (String sep EmptyString) (split sep s).
Proof.
  induction s as [|d r IH]; [done|]. cbn [split].
  destruct (split_nonempty sep r) as (p & ps & Hs). rewrite Hs in IH |- *.
  destruct (Ascii.eqb d sep) eqn:E.
  - apply Ascii.eqb_eq in E as ->. rewrite IH at 1. reflexivity.
  - rewrite IH at 1. by destruct ps.
Qed.

Lemma splitsInto_split sep s : splitsInto sep s (split sep s).
Proof.
  split_and!.
  - apply concat_split.
  - destruct (split_nonempty sep s) as (p & ps & ->). done.
  - eapply Forall_impl; [apply (split_pieces sep sep s)|].
    intros piece [H _] Hc. apply hasChar_contains in Hc. by rewrite H in Hc.
Qed.

Lemma splitsInto_unique sep s pieces :
  splitsInto sep s pieces -> pieces = split sep s.
Proof.
  intros (-> & Hne & Hall). induction pieces as [|p ps IH]; [done|].
  apply Forall_cons in Hall as [Hp Hall].
  assert (hasChar sep p = false) as Hp'.
  { apply not_true_is_false. intros H. by apply Hp, hasChar_contains. }
  destruct ps as [|q qs].
  - cbn [String.concat]. by rewrite split_plain.
  - change (p :: q :: qs
            = split sep (p +:+ String sep
                           (String.concat (String sep EmptyString) (q :: qs)))).
    rewrite split_at by done. f_equal. by apply IH.
Qed.

End HeaderFacts.

Section IngestClaims.
Import JS Header.

(** C8.  The delimiter is found from the header line alone, in the order
    semicolon, tab, comma: a header line with a semicolon gives the
    semicolon, whatever else it holds; one without a semicolon but with a
    tab gives the tab; any other gives the comma.  The header
    [Date;Description;Amount;Type] gives the semicolon, and [parseCSV]
    splits the header and every data line on that delimiter. *)
Theorem delimiter_priority (headerLine : string) :
  (contains ";" headerLine -> detectDelimiter headerLine = ";"%char)
  /\ (~ contains ";" headerLine -> contains tab headerLine ->
        detectDelimiter headerLine = tab)
  /\ (~ contains ";" headerLine -> ~ contains tab headerLine ->
        detectDelimiter headerLine = ","%char)
  /\ detectDelimiter "Date;Description;Amount;Type" = ";"%char
  /\ (forall Date_isoDay dataLines,
        parseLines Date_isoDay (headerLine :: dataLines)
        = if missingRequired (columnsOf headerLine) then Throw missingColumns
          else rows ← mapM (parseRow Date_isoDay (detectDelimiter headerLine)
                              (columnsOf headerLine)) dataLines;
               Ok (omap keepRow rows)).
Proof.
  unfold contains, detectDelimiter. split_and!.
  - intros H. apply includes_char in H. by rewrite H.
  - intros H1 H2. rewrite <- includes_char in H1, H2.
    apply not_true_is_false in H1. by rewrite H1, H2.
  - intros H1 H2. rewrite <- includes_char in H1, H2.
    apply not_true_is_false in H1, H2. by rewrite H1, H2.
  - reflexivity.
  - reflexivity.
Qed.

Lemma delimiter_priority_witness :
  detectDelimiter ("Date;Description" +:+ String tab "Amount,Type") = ";"%char.
Proof.
  apply (proj1 (delimiter_priority _)).
  exists "Date", ("Description" +:+ String tab "Amount,Type"). reflexivity.
Defined.

(** C5 fails on the code.  A text all of whose lines are blank is trimmed
    to the empty string, whose split on the newline is one empty line, not
    no line: the guard on [lines.length === 0] never holds, the empty header
    has no column, and [parseCSV] throws instead of returning no record. *)
Theorem blank_text_throws (Date_isoDay : string -> option string) (text : string) :
  Forall blankLine (split newline text) ->
  parseCSV Date_isoDay text = Throw missingColumns.
Proof.
  intros H. assert (trim text = EmptyString) as Ht.
  { apply trim_empty, blank_lines_allSpace.
    eapply Forall_impl; [exact H|]. intros l Hl. by apply trim_empty. }
  unfold parseCSV. rewrite Ht. reflexivity.
Qed.

Lemma blank_text_throws_witness :
  parseCSV isoDatesOnly Samples.blankText = Throw missingColumns.
Proof.
  apply blank_text_throws. vm_compute. repeat constructor.
Defined.

(** C3 fails on the code.  With a type column in the header the amount cell
    is stored as parsed, without [Math.abs]: a negative cell gives a record
    of negative amount.  And the final filter drops [NaN] only: a cell that
    reads as an infinite number gives a record of infinite amount. *)
Theorem signed_amount_stored (Date_isoDay : string -> option string) :
  Date_isoDay "2024-01-05" = Some "2024-01-05" ->
  parseCSV Date_isoDay Samples.signedStatement
  = Ok [ {| bank_date := "2024-01-05"; bank_description := "Coffee";
            bank_amount := Fin (-5 # 1); bank_type := debit |} ]
  /\ parseCSV Date_isoDay Samples.infiniteStatement
     = Ok [ {| bank_date := "2024-01-05"; bank_description := "Glitch";
               bank_amount := Inf false; bank_type := credit |} ].
Proof.
  intros H. split.
  - vm_compute. rewrite H. reflexivity.
  - vm_compute. rewrite H. reflexivity.
Qed.

Lemma signed_amount_stored_witness :
  parseCSV isoDatesOnly Samples.signedStatement
  = Ok [ {| bank_date := "2024-01-05"; bank_description := "Coffee";
            bank_amount := Fin (-5 # 1); bank_type := debit |} ].
Proof.
  apply (proj1 (signed_amount_stored isoDatesOnly eq_refl)).
Defined.

(** C6.  [parseCSV] throws exactly when the date, the description or the
    amount column is not found in the header line, and then with the
    message on the required columns.  The header line is the first of the
    lines of the trimmed text; its cells are the parts of the lower-cased
    line between the delimiters, trimmed and without quote characters; a
    cell names the date when the text [date] or [datum] occurs in it, the
    description when [description], [memo], [detail] or [beschreibung]
    does, the amount when [amount] or [betrag] does; each index is the
    position of the first cell naming its column, and [-1] when no cell
    does.  So [parseCSV] throws exactly when no cell names the date, or
    none the description, or none the amount.  When the three are found it
    returns the records of the data lines, in their order, where a line
    that is blank, has too few columns, has an invalid date or an amount
    that does not parse gives no record, and any other line gives one. *)
Theorem fatal_only_on_missing_columns
    (Date_isoDay : string -> option string) (text : string) :
  exists headerLine dataLines,
    split newline (trim text) = headerLine :: dataLines
    /\ let delimiter := detectDelimiter headerLine in
       let c := columnsOf headerLine in
       ((exists msg, parseCSV Date_isoDay text = Throw msg)
          <-> dateIndex c = (-1)%Z \/ descIndex c = (-1)%Z
              \/ amountIndex c = (-1)%Z)
       /\ (dateIndex c <> (-1)%Z -> descIndex c <> (-1)%Z ->
           amountIndex c <> (-1)%Z ->
             parseCSV Date_isoDay text
             = Ok (omap (rowRecord Date_isoDay delimiter c) dataLines)
             /\ forall line,
                  (defective Date_isoDay delimiter c line ->
                     rowRecord Date_isoDay delimiter c line = None)
                  /\ (~ defective Date_isoDay delimiter c line ->
                        exists desc type,
                          rowRecord Date_isoDay delimiter c line
                          = Some {| bank_date :=
                                      formatDate Date_isoDay
                                        (dateCellOf delimiter c line);
                                    bank_description := desc;
                                    bank_amount := storedAmount delimiter c line;
                                    bank_type := type |}))
       /\ splitsInto newline (trim text) (headerLine :: dataLines)
       /\ (exists pieces, splitsInto delimiter (toLowerCase headerLine) pieces)
       /\ (forall pieces,
             splitsInto delimiter (toLowerCase headerLine) pieces ->
             let headerCells :=
               (fun piece => stripQuotes (trim piece)) <$> pieces in
             firstNaming namesDate headerCells (dateIndex c)
             /\ firstNaming namesDescription headerCells (descIndex c)
             /\ firstNaming namesAmount headerCells (amountIndex c)
             /\ ((exists msg, parseCSV Date_isoDay text = Throw msg)
                 <-> (~ exists cell, cell ∈ headerCells /\ namesDate cell)
                     \/ (~ exists cell,
                            cell ∈ headerCells /\ namesDescription cell)
                     \/ (~ exists cell, cell ∈ headerCells /\ namesAmount cell))
             /\ ((exists cell, cell ∈ headerCells /\ namesDate cell) ->
                 (exists cell, cell ∈ headerCells /\ namesDescription cell) ->
                 (exists cell, cell ∈ headerCells /\ namesAmount cell) ->
                 parseCSV Date_isoDay text
                 = Ok (omap (rowRecord Date_isoDay delimiter c) dataLines)))
       /\ (forall msg,
             parseCSV Date_isoDay text = Throw msg -> msg = missingColumns).
Proof.
  destruct (split_nonempty newline (trim text)) as (h & rows & Hs).
  exists h, rows. split; [done|]. intros delimiter c.
  destruct (columnsOf_bounds h) as (B1 & B2 & B3 & B4). fold c in B1, B2, B3, B4.
  assert (dateIndex c <> (-1)%Z -> descIndex c <> (-1)%Z ->
          amountIndex c <> (-1)%Z ->
          parseCSV Date_isoDay text
          = Ok (omap (rowRecord Date_isoDay delimiter c) rows)) as Hok.
  { intros N1 N2 N3. unfold parseCSV. rewrite Hs. unfold parseLines.
    fold c delimiter.
    assert (missingRequired c = false) as -> by (by apply missingRequired_false).
    destruct (mapM_parseRow Date_isoDay delimiter c) with (dataLines := rows)
      as (ts & -> & <-); try lia. reflexivity. }
  assert ((exists msg, parseCSV Date_isoDay text = Throw msg)
          <-> dateIndex c = (-1)%Z \/ descIndex c = (-1)%Z
              \/ amountIndex c = (-1)%Z) as Hthrow.
  { split.
    - intros [msg Hmsg].
      destruct (decide (dateIndex c = (-1)%Z)) as [|N1]; [tauto|].
      destruct (decide (descIndex c = (-1)%Z)) as [|N2]; [tauto|].
      destruct (decide (amountIndex c = (-1)%Z)) as [|N3]; [tauto|].
      rewrite Hok in Hmsg by done. discriminate Hmsg.
    - intros Hmiss. apply missingRequired_true in Hmiss.
      exists missingColumns. unfold parseCSV. rewrite Hs. unfold parseLines.
      fold c. by rewrite Hmiss. }
  split_and!.
  - exact Hthrow.
  - intros N1 N2 N3. split; [by apply Hok|]. intros line. split.
    + apply rowRecord_dropped; lia.
    + apply rowRecord_kept; lia.
  - rewrite <- Hs. apply splitsInto_split.
  - eexists. apply splitsInto_split.
  - intros pieces ->%splitsInto_unique headerCells.
    assert (firstNaming namesDate headerCells (dateIndex c)) as F1
      by apply (findIndex_firstNaming _ _ _ isDateHeader_names).
    assert (firstNaming namesDescription headerCells (descIndex c)) as F2
      by apply (findIndex_firstNaming _ _ _ isDescHeader_names).
    assert (firstNaming namesAmount headerCells (amountIndex c)) as F3
      by apply (findIndex_firstNaming _ _ _ isAmountHeader_names).
    apply firstNaming_missing in F1 as M1, F2 as M2, F3 as M3.
    split_and!; [done|done|done| |].
    + rewrite Hthrow. by rewrite M1, M2, M3.
    + intros E1 E2 E3. apply Hok; [rewrite M1|rewrite M2|rewrite M3]; tauto.
  - intros msg Hmsg.
    destruct (missingRequired c) eqn:Hmiss.
    + unfold parseCSV in Hmsg. rewrite Hs in Hmsg. unfold parseLines in Hmsg.
      fold c in Hmsg. rewrite Hmiss in Hmsg. by injection Hmsg.
    + unfold missingRequired in Hmiss.
      apply orb_false_iff in Hmiss as [[N1 N2]%orb_false_iff N3].
      apply Z.eqb_neq in N1, N2, N3.
      rewrite Hok in Hmsg by done. discriminate Hmsg.
Qed.

Lemma fatal_only_on_missing_columns_witness :
  parseCSV isoDatesOnly Samples.mixedStatement
  = Ok [ {| bank_date := "2024-01-05"; bank_description := "Coffee";
            bank_amount := Fin (5 # 1); bank_type := debit |};
         {| bank_date := "2024-01-07"; bank_description := "Salary";
            bank_amount := Fin (2401 # 2); bank_type := credit |} ]
  /\ parseCSV isoDatesOnly Samples.headlessStatement = Throw missingColumns.
Proof.
  split.
  - destruct (fatal_only_on_missing_columns isoDatesOnly Samples.mixedStatement)
      as (h & rows & Hs & _ & Hok & _).
    vm_compute in Hs. injection Hs as <- <-.
    destruct Hok as [-> _]; [vm_compute; discriminate..|].
    vm_compute. reflexivity.
  - destruct (fatal_only_on_missing_columns isoDatesOnly
                Samples.headlessStatement)
      as (h & rows & Hs & _ & _ & _ & _ & Hcells & Hmsg).
    vm_compute in Hs. injection Hs as <- <-.
    destruct (Hcells ["description"; "amount"]) as (_ & _ & _ & [_ Hthrow] & _).
    { split_and!; [reflexivity | discriminate |].
      repeat constructor; intros H%hasChar_contains; discriminate H. }
    destruct Hthrow as [msg Hthrown].
    { left. intros (cell & Hcell & Hdate%isDateHeader_names).
      apply elem_of_cons in Hcell as [->|Hcell]; [discriminate Hdate|].
      apply list_elem_of_singleton in Hcell as ->. discriminate Hdate. }
    by rewrite Hthrown, (Hmsg msg Hthrown).
Defined.

End IngestClaims.

(** ** The report *)

Section QuoteFacts.
Import Report.














End QuoteFacts.

(** ** The rows of the report *)

Section ReportRowFacts.
Import Report Header Rows.






End ReportRowFacts.

Section ReportClaims.
Import Report Header Rows.




End ReportClaims.

(** * Further properties *)

(** ** More on one comparison run *)

Section PairingFacts.
Import Matcher Pairing.
Variable bank : list BankTransaction.

Lemma run_bankOnly_filter us : forall r,
  bankOnly (foldl (visit bank) r us)
  = filter (fun o => ref_slot o ∉ takenSlots bank us) (bankOnly r).
Proof.
  induction us as [|u us IH]; intros r.
  - simpl. symmetry. induction (bankOnly r) as [|o l IHl]; [done|].
    rewrite filter_cons_True; [by rewrite IHl | by intros ?%elem_of_nil].
  - change (foldl (visit bank) r (u :: us))
      with (foldl (visit bank) (visit bank r u) us).
    rewrite IH, visit_bankOnly. unfold takenSlots. rewrite omap_step.
    destruct (pairedWith bank u) as [p|]; simpl; [|done].
    unfold dropBank. rewrite list_filter_filter.
    apply list_filter_iff. intros o. rewrite elem_of_cons. split.
    + intros [H1 H2] [H|H]; [by apply H2 | by apply H1].
    + intros H. split; [intros ?; apply H; by right | intros ?; apply H; by left].
Qed.

Lemma survives_unpaired (us : list Transaction) (x : Transaction) :
  NoDup (tx_id <$> us) -> x ∈ us ->
  (survives bank us x <-> pairedWith bank x = None).
Proof.
  intros Hnd Hx. unfold survives. rewrite Forall_forall. split.
  - intros H. destruct (pairedWith bank x) as [p|] eqn:E; [|done].
    exfalso. apply (H x Hx); [by rewrite E | done].
  - intros E u Hu [q Hq] Hid.
    assert (x = u) as -> by (by eapply NoDup_fmap_elem_inj).
    by rewrite E in Hq.
Qed.

Lemma placed_permutation (us l : list Transaction) :
  NoDup (tx_id <$> us) -> l ⊆ us ->
  (fst <$> omap (matchOf bank) l)
  ++ ((fun t => fst (fst t)) <$> omap (mismatchOf bank) l)
  ++ filter (survives bank us) l ≡ₚ l.
Proof.
  intros Hnd. induction l as [|x l IH]; intros Hsub; [done|].
  assert (x ∈ us) as Hx by (apply Hsub; by left).
  assert (l ⊆ us) as Hl by (intros y Hy; apply Hsub; by right).
  specialize (IH Hl).
  pose proof (matchOf_mismatchOf_pairedWith bank x) as H.
  pose proof (survives_unpaired us x Hnd Hx) as Hs.
  destruct (pairedWith bank x) as [p|] eqn:E.
  - rewrite filter_cons_False by (intros Hv; by apply Hs in Hv).
    destruct H as [[H1 H2]|[H1 [reason H2]]]; rewrite !omap_step, H1, H2; simpl.
    + by constructor.
    + rewrite <- Permutation_middle. by constructor.
  - destruct H as [H1 H2]. rewrite filter_cons_True by (by apply Hs).
    rewrite !omap_step, H1, H2.
    rewrite app_assoc, <- Permutation_middle, <- app_assoc. by constructor.
Qed.

Lemma placed_bounded (us l : list Transaction) :
  l ⊆ us ->
  (length (omap (matchOf bank) l) + length (omap (mismatchOf bank) l)
   + length (filter (survives bank us) l) <= length l)%nat.
Proof.
  induction l as [|x l IH]; intros Hsub; [done|].
  assert (x ∈ us) as Hx by (apply Hsub; by left).
  assert (l ⊆ us) as Hl by (intros y Hy; apply Hsub; by right).
  specialize (IH Hl).
  pose proof (matchOf_mismatchOf_pairedWith bank x) as H.
  destruct (pairedWith bank x) as [p|] eqn:E.
  - rewrite filter_cons_False; cycle 1.
    { intros Hs. unfold survives in Hs. rewrite Forall_forall in Hs.
      apply (Hs x Hx); [by rewrite E | done]. }
    destruct H as [[H1 H2]|[H1 [reason H2]]];
      rewrite !omap_step, H1, H2; simpl; lia.
  - destruct H as [H1 H2]. rewrite !omap_step, H1, H2, filter_cons.
    destruct (decide (survives bank us x)); simpl; lia.
Qed.

Lemma dateless_visit r u : quietDay bank u -> visit bank r u = r.
Proof.
  intros Hq. unfold visit.
  assert (findBank (isMatching u) bank = None) as ->.
  { apply findBank_None. intros b Hb. unfold isMatching.
    assert (dateMatch u b = false) as ->; [|by rewrite andb_false_r].
    apply not_true_is_false. rewrite dateMatch_eq. by apply Hq. }
  assert (findBank (isPotentialMismatch u) bank = None) as ->; [|done].
  apply findBank_None. intros b Hb. unfold isPotentialMismatch.
  assert (dateMatch u b = false) as ->; [|done].
  apply not_true_is_false. rewrite dateMatch_eq. by apply Hq.
Qed.

Lemma pairedWith_date u p :
  pairedWith bank u = Some p -> tx_date u = bank_date (ref_record p).
Proof.
  unfold pairedWith. destruct (findBank (isMatching u) bank) as [m|] eqn:E.
  - intros [= <-]. apply findBank_first in E as (_ & E & _).
    unfold isMatching in E. apply andb_true_iff in E as [E _].
    apply andb_true_iff in E as [_ E]. by apply dateMatch_eq.
  - intros E'. apply findBank_first in E' as (_ & E' & _).
    unfold isPotentialMismatch in E'. apply andb_true_iff in E' as [E' _].
    by apply dateMatch_eq.
Qed.

Lemma unpaired_quiet u :
  is_finite (tx_amount u) ->
  (forall b, b ∈ bank -> is_finite (bank_amount b)) ->
  (pairedWith bank u = None <-> quietDay bank u).
Proof.
  intros Hu Hb. split.
  - intros E b Hin Hdate. unfold pairedWith in E.
    destruct (findBank (isMatching u) bank) as [m|] eqn:E1; [done|].
    pose proof (proj1 (findBank_None _ _) E1 b Hin) as H1.
    pose proof (proj1 (findBank_None _ _) E b Hin) as H2.
    rewrite not_matching_is_mismatch in H2 by auto.
    apply dateMatch_eq in Hdate. congruence.
  - intros Hq. destruct (pairedWith bank u) as [p|] eqn:E; [|done].
    exfalso. apply (Hq (ref_record p)).
    + apply pairedWith_stored in E. by eapply list_elem_of_lookup_2.
    + by apply pairedWith_date.
Qed.

End PairingFacts.

Section PairingProperties.
Import Matcher Pairing Samples.

(** X1.  With pairwise distinct ids, the user transactions of [matched],
    of [mismatched] and of [userOnly] are, together, the user transactions
    of the input, each one once. *)
Theorem users_partitioned (uts : list Transaction) (bts : list BankTransaction) :
  NoDup (tx_id <$> uts) -> placedUsers (compare uts bts) ≡ₚ uts.
Proof.
  intros Hnd. unfold placedUsers, compare.
  rewrite run_matched, run_mismatched, run_userOnly. simpl.
  by apply placed_permutation.
Qed.

Lemma users_partitioned_witness :
  placedUsers (compare [twinA; refund; distant] [cardPayment])
  ≡ₚ [twinA; refund; distant].
Proof.
  apply users_partitioned. apply (bool_decide_unpack _). vm_compute. exact I.
Defined.

(** X2.  Whatever the ids, the three buckets never hold more entries than
    there are user transactions, and a user transaction is in [userOnly]
    exactly when it is in the input and no user transaction that found a
    bank record carries its id: one that shares its id with a paired one is
    in no bucket. *)
Theorem users_never_multiplied (uts : list Transaction) (bts : list BankTransaction) :
  let r := compare uts bts in
  (length (matched r) + length (mismatched r) + length (userOnly r)
   <= length uts)%nat
  /\ (forall t, t ∈ userOnly r <-> t ∈ uts /\ survives bts uts t).
Proof.
  intros r. subst r. unfold compare.
  rewrite run_matched, run_mismatched, run_userOnly. simpl. split.
  - by apply placed_bounded.
  - intros t. rewrite list_elem_of_filter. tauto.
Qed.

(** X3.  The order of the user transactions does not matter: reordering
    them reorders [matched], [mismatched] and [userOnly] and leaves
    [bankOnly] as it is. *)
Theorem user_order_irrelevant (uts uts' : list Transaction)
    (bts : list BankTransaction) :
  uts ≡ₚ uts' ->
  matched (compare uts bts) ≡ₚ matched (compare uts' bts)
  /\ mismatched (compare uts bts) ≡ₚ mismatched (compare uts' bts)
  /\ userOnly (compare uts bts) ≡ₚ userOnly (compare uts' bts)
  /\ bankOnly (compare uts bts) = bankOnly (compare uts' bts).
Proof.
  intros Hp. unfold compare.
  rewrite !run_matched, !run_mismatched, !run_userOnly, !run_bankOnly_filter.
  simpl. split_and!.
  - by apply omap_Permutation.
  - by apply omap_Permutation.
  - etrans; [apply filter_Permutation, Hp|].
    assert (filter (survives bts uts) uts' = filter (survives bts uts') uts')
      as ->; [|done].
    apply list_filter_iff. intros t. unfold survives. by rewrite Hp.
  - apply list_filter_iff. intros o.
    assert (takenSlots bts uts ≡ₚ takenSlots bts uts') as Ht
      by (by apply omap_Permutation).
    by rewrite Ht.
Qed.

Lemma user_order_irrelevant_witness :
  bankOnly (compare [twinA; refund] [cardPayment])
  = bankOnly (compare [refund; twinA] [cardPayment]).
Proof.
  apply (user_order_irrelevant [twinA; refund] [refund; twinA]).
  apply perm_swap.
Defined.

(** X4.  In every pair of [matched] and in every triple of [mismatched]
    the bank record has the date of the user transaction it is paired
    with.  When no bank record carries the date of any user transaction,
    the comparison leaves every user transaction in [userOnly] and every
    bank record in [bankOnly]; with at least one bank record this is the
    result [compareTransactions] sets. *)
Theorem pairs_share_date (uts : list Transaction) (bts : list BankTransaction) :
  (forall u o, (u, o) ∈ matched (compare uts bts) ->
     u ∈ uts /\ tx_date u = bank_date (ref_record o))
  /\ (forall u o reason, (u, o, reason) ∈ mismatched (compare uts bts) ->
        u ∈ uts /\ tx_date u = bank_date (ref_record o))
  /\ ((forall u, u ∈ uts -> quietDay bts u) ->
        compare uts bts = initial uts bts
        /\ userOnly (compare uts bts) = uts
        /\ ref_record <$> bankOnly (compare uts bts) = bts
        /\ (bts <> [] ->
            compareTransactions uts bts = Some (initial uts bts))).
Proof.
  split_and!.
  - intros u o H. unfold compare in H. rewrite run_matched in H.
    simpl in H. apply list_elem_of_omap in H as (v & Hv & Hm).
    pose proof (matchOf_mismatchOf_pairedWith bts v) as Hp.
    destruct (pairedWith bts v) as [p|] eqn:E.
    + destruct Hp as [[Hp _]|[Hp _]]; rewrite Hp in Hm; [|done].
      injection Hm as <- <-. split; [done|]. by eapply pairedWith_date.
    + destruct Hp as [Hp _]. by rewrite Hp in Hm.
  - intros u o reason H. unfold compare in H. rewrite run_mismatched in H.
    simpl in H. apply list_elem_of_omap in H as (v & Hv & Hm).
    pose proof (matchOf_mismatchOf_pairedWith bts v) as Hp.
    destruct (pairedWith bts v) as [p|] eqn:E.
    + destruct Hp as [[_ Hp]|[_ [reason' Hp]]]; rewrite Hp in Hm; [done|].
      injection Hm as <- <- _. split; [done|]. by eapply pairedWith_date.
    + destruct Hp as [_ Hp]. by rewrite Hp in Hm.
  - intros Hq.
    assert (compare uts bts = initial uts bts) as Hc.
    { unfold compare. generalize (initial uts bts). revert Hq.
      induction uts as [|u us IH]; intros Hq r; simpl; [done|].
      rewrite dateless_visit by (apply Hq; by left).
      apply IH. intros v Hv. apply Hq. by right. }
    split_and!; [done|by rewrite Hc|rewrite Hc|].
    + simpl. apply list_eq. intros i.
      rewrite list_lookup_fmap, list_lookup_imap. by destruct (bts !! i).
    + intros Hne. destruct bts; [done|]. simpl. by rewrite Hc.
Qed.

Lemma pairs_share_date_witness :
  (tx_date refund = bank_date cardPayment)
  /\ compare [twinA] [Fixtures.laterPayment]
     = initial [twinA] [Fixtures.laterPayment]
  /\ compareTransactions [twinA] [Fixtures.laterPayment]
     = Some (initial [twinA] [Fixtures.laterPayment]).
Proof.
  split.
  - eapply proj2.
    apply (proj1 (proj2 (pairs_share_date [twinA; refund] [cardPayment]))
             refund (0%nat, cardPayment) "Transaction type mismatch").
    vm_compute. constructor.
  - destruct (proj2 (proj2 (pairs_share_date [twinA] [Fixtures.laterPayment])))
      as (H1 & _ & _ & H2).
    + intros u Hu b Hb.
      apply list_elem_of_singleton in Hu as ->.
      apply list_elem_of_singleton in Hb as ->. discriminate.
    + split; [exact H1 | apply H2; discriminate].
Defined.

(** X5.  With pairwise distinct ids and finite amounts, a user transaction
    is in [userOnly] exactly when no bank record carries its date. *)
Theorem userOnly_iff_quiet_day (uts : list Transaction)
    (bts : list BankTransaction) (u : Transaction) :
  NoDup (tx_id <$> uts) ->
  (forall t, t ∈ uts -> is_finite (tx_amount t)) ->
  (forall b, b ∈ bts -> is_finite (bank_amount b)) ->
  u ∈ uts ->
  (u ∈ userOnly (compare uts bts) <-> quietDay bts u).
Proof.
  intros Hnd Hfu Hfb Hu. unfold compare. rewrite run_userOnly. simpl.
  rewrite list_elem_of_filter, (survives_unpaired bts uts u Hnd Hu).
  rewrite (unpaired_quiet bts u (Hfu u Hu) Hfb). tauto.
Qed.

Lemma userOnly_iff_quiet_day_witness :
  twinA ∈ userOnly (compare [twinA] [Fixtures.laterPayment])
  <-> quietDay [Fixtures.laterPayment] twinA.
Proof.
  apply userOnly_iff_quiet_day.
  - apply (bool_decide_unpack _). vm_compute. exact I.
  - intros t Ht. apply list_elem_of_singleton in Ht as ->. exact I.
  - intros b Hb. apply list_elem_of_singleton in Hb as ->. exact I.
  - repeat constructor.
Defined.

(** X20.  A bank record with an amount of minus 0.01 or less never matches
    a user transaction with an amount of zero or more; when the two agree
    on the date the record is a potential mismatch, of reason
    [amount_mismatch]. *)
Theorem negative_amounts_never_match (u : Transaction) (b : BankTransaction)
    (a c : Q) :
  tx_amount u = Fin a -> bank_amount b = Fin c ->
  (0 <= a)%Q -> (c <= - (1 # 100))%Q ->
  isMatching u b = false
  /\ (tx_date u = bank_date b ->
        isPotentialMismatch u b = true /\ reasonOf u b = amount_mismatch).
Proof.
  intros Ha Hc Hpos Hneg.
  assert (1 # 100 <= Qabs (a - c))%Q as Hgap.
  { assert (1 # 100 <= a - c)%Q as H.
    { apply Qopp_le_compat in Hneg.
      exact (Qplus_le_compat 0 a (1 # 100) (- c) Hpos Hneg). }
    rewrite Qabs_pos; [done|]. by apply (Qle_trans _ (1 # 100)). }
  assert (amountMatch u b = false) as Ham.
  { apply not_true_is_false. rewrite (amountMatch_Fin _ _ _ _ Ha Hc).
    by apply Qle_not_lt. }
  split.
  - unfold isMatching. by rewrite Ham.
  - intros Hdate. destruct (reasonOf_Fin _ _ _ _ Ha Hc) as [Hr _].
    split; [|by apply Hr].
    unfold isPotentialMismatch, tolerance.
    rewrite (amountGap_Fin _ _ _ _ Ha Hc).
    apply dateMatch_eq in Hdate. rewrite Hdate.
    apply num_geb_Fin in Hgap. by rewrite Hgap.
Qed.

Lemma negative_amounts_never_match_witness :
  isMatching twinA Fixtures.signedCoffee = false.
Proof.
  apply (negative_amounts_never_match twinA Fixtures.signedCoffee
           (50 # 1) (-5 # 1)); [reflexivity.. | done | done].
Defined.

End PairingProperties.

(** ** What [parseCSV] emits *)

Section EmittedFacts.
Import JS Chars.
Variable Date_isoDay : string -> option string.

(** The record of a data line, read back. *)
Lemma rowRecord_inv delimiter c line r :
  (0 <= dateIndex c)%Z -> (0 <= descIndex c)%Z -> (0 <= amountIndex c)%Z ->
  (-1 <= typeIndex c)%Z ->
  rowRecord Date_isoDay delimiter c line = Some r ->
  bank_date r = formatDate Date_isoDay (dateCellOf delimiter c line)
  /\ bank_date r <> invalidDate
  /\ bank_description r ∈ cells delimiter line
  /\ bank_amount r = storedAmount delimiter c line
  /\ isNaN (bank_amount r) = false
  /\ (typeIndex c = (-1)%Z ->
        bank_type r
        = if num_gtb (parseAmount (amountCellOf delimiter c line)) (Fin 0)
          then credit else debit).
Proof.
  intros B1 B2 B3 B4. unfold rowRecord, parseRow.
  destruct ((Z.of_nat (length (cells delimiter line)) <=? lastIndex c)%Z
            || String.eqb (trim line) EmptyString) eqn:G; [done|].
  apply orb_false_iff in G as [G _]. apply Z.leb_gt in G.
  unfold lastIndex in G.
  unfold storedAmount, dateCellOf, amountCellOf.
  destruct (item_defined (cells delimiter line) (amountIndex c)) as [a ->]; [lia|].
  destruct (item_defined (cells delimiter line) (dateIndex c)) as [dt ->]; [lia|].
  destruct (item_defined (cells delimiter line) (descIndex c)) as [ds Hds]; [lia|].
  simpl. destruct (typeIndex c =? -1)%Z eqn:Et; simpl.
  - rewrite Hds. simpl.
    destruct (String.eqb (formatDate Date_isoDay dt) invalidDate) eqn:Ed;
      simpl; [done|].
    destruct (isNaN (num_abs (parseAmount a))) eqn:En; simpl; [done|].
    intros [= <-]. simpl. apply String.eqb_neq in Ed.
    split_and!; try done. by eapply item_elem.
  - apply Z.eqb_neq in Et. simpl in G.
    destruct (item_defined (cells delimiter line) (typeIndex c)) as [ty ->]; [lia|].
    simpl. rewrite Hds. simpl.
    destruct (String.eqb (formatDate Date_isoDay dt) invalidDate) eqn:Ed;
      simpl; [done|].
    destruct (isNaN (parseAmount a)) eqn:En; simpl; [done|].
    intros [= <-]. simpl. apply String.eqb_neq in Ed.
    split_and!; try done. by eapply item_elem.
Qed.

(** A statement whose header has the three columns, read back. *)
Lemma parseLines_inv headerLine dataLines rs :
  parseLines Date_isoDay (headerLine :: dataLines) = Ok rs ->
  let c := columnsOf headerLine in
  ((0 <= dateIndex c)%Z /\ (0 <= descIndex c)%Z /\ (0 <= amountIndex c)%Z
   /\ (-1 <= typeIndex c)%Z)
  /\ rs = omap (rowRecord Date_isoDay (detectDelimiter headerLine) c) dataLines.
Proof.
  intros H c. unfold parseLines in H. fold c in H.
  destruct (missingRequired c) eqn:Em; [done|].
  apply missingRequired_false in Em as (N1 & N2 & N3).
  destruct (columnsOf_bounds headerLine) as (B1 & B2 & B3 & B4).
  fold c in B1, B2, B3, B4.
  assert (0 <= dateIndex c)%Z as P1 by lia.
  assert (0 <= descIndex c)%Z as P2 by lia.
  assert (0 <= amountIndex c)%Z as P3 by lia.
  split; [done|].
  destruct (mapM_parseRow Date_isoDay (detectDelimiter headerLine) c
              P1 P2 P3 B4 dataLines) as (ts & Hts & <-).
  rewrite Hts in H. simpl in H. by injection H.
Qed.

Lemma parseLines_ok headerLine dataLines :
  missingRequired (columnsOf headerLine) = false ->
  parseLines Date_isoDay (headerLine :: dataLines)
  = Ok (omap (rowRecord Date_isoDay (detectDelimiter headerLine)
                (columnsOf headerLine)) dataLines).
Proof.
  intros Em. unfold parseLines. rewrite Em.
  apply missingRequired_false in Em as (N1 & N2 & N3).
  destruct (columnsOf_bounds headerLine) as (B1 & B2 & B3 & B4).
  destruct (mapM_parseRow Date_isoDay (detectDelimiter headerLine)
              (columnsOf headerLine)) with (dataLines := dataLines)
    as (ts & -> & <-); try lia. done.
Qed.

Lemma omap_length_le {A B : Type} (f : A -> option B) (l : list A) :
  (length (omap f l) <= length l)%nat.
Proof.
  induction l as [|x l IH]; [done|]. rewrite omap_step.
  destruct (f x); simpl; lia.
Qed.

End EmittedFacts.

(** ** The ingestor, further *)

Section TrimFacts.
Import JS Chars.

Lemma rev_app_append s1 s2 :
  String.rev_app s1 s2 = String.rev s1 +:+ s2.
Proof.
  unfold String.rev. revert s2.
  induction s1 as [|c r IH]; intros s2; simpl; [done|].
  by rewrite (IH (String c s2)), (IH (String c EmptyString)), app_assoc_string.
Qed.

Lemma rev_append a b : String.rev (a +:+ b) = String.rev b +:+ String.rev a.
Proof.
  induction a as [|c a IH]; simpl.
  - change (String.rev EmptyString) with EmptyString. by rewrite append_empty_r.
  - unfold String.rev at 1 3. simpl. rewrite !rev_app_append.
    rewrite IH. by rewrite app_assoc_string.
Qed.

Lemma trimStart_space a s :
  allSpace a = true -> trimStart (a +:+ s) = trimStart s.
Proof.
  induction a as [|c a IH]; simpl; [done|].
  intros [-> H]%andb_true_iff. by apply IH.
Qed.

Lemma trimStart_keeps s b :
  trimStart s <> EmptyString -> trimStart (s +:+ b) = trimStart s +:+ b.
Proof.
  induction s as [|c r IH]; simpl; [done|].
  destruct (is_space c); [apply IH | done].
Qed.

Lemma trimEnd_space s b : allSpace b = true -> trimEnd (s +:+ b) = trimEnd s.
Proof.
  intros Hb. unfold trimEnd. rewrite rev_append, trimStart_space; [done|].
  by rewrite rev_allSpace.
Qed.

Lemma allSpace_app a b : allSpace (a +:+ b) = allSpace a && allSpace b.
Proof.
  induction a as [|c a IH]; simpl; [done|]. rewrite IH. apply andb_assoc.
Qed.

Lemma trim_padded a s b :
  allSpace a = true -> allSpace b = true -> trim (a +:+ s +:+ b) = trim s.
Proof.
  intros Ha Hb. unfold trim. rewrite trimStart_space by done.
  destruct (allSpace s) eqn:Es.
  - assert (allSpace (s +:+ b) = true) as H by (by rewrite allSpace_app, Es, Hb).
    apply trimStart_empty in H, Es. by rewrite H, Es.
  - assert (trimStart s <> EmptyString) as Hne.
    { intros H. apply trimStart_empty in H. congruence. }
    rewrite trimStart_keeps by done. by apply trimEnd_space.
Qed.

Lemma lower_fixed (c d : ascii) :
  isLetter c = false -> (Ascii.eqb (lower d) c = Ascii.eqb d c).
Proof.
  destruct c as [[] [] [] [] [] [] [] []]; try discriminate; intros _;
    destruct d as [[] [] [] [] [] [] [] []]; reflexivity.
Qed.

Lemma hasChar_toLowerCase c s :
  isLetter c = false -> hasChar c (toLowerCase s) = hasChar c s.
Proof.
  intros Hc. induction s as [|d r IH]; simpl; [done|].
  by rewrite IH, lower_fixed.
Qed.

End TrimFacts.

Section IngestProperties.
Import JS Chars.

(** X6.  Every record that [parseCSV] returns has a date other than
    [Invalid Date] and an amount other than [NaN], and there are at most as
    many records as lines after the header. *)
Theorem emitted_records_valid (Date_isoDay : string -> option string)
    (text : string) (rs : list BankTransaction) :
  parseCSV Date_isoDay text = Ok rs ->
  (forall r, r ∈ rs ->
     bank_date r <> invalidDate /\ isNaN (bank_amount r) = false)
  /\ (length rs < length (split newline (trim text)))%nat.
Proof.
  unfold parseCSV.
  destruct (split_nonempty newline (trim text)) as (h & rows & ->).
  intros H. apply parseLines_inv in H as ((B1 & B2 & B3 & B4) & ->). split.
  - intros r (line & _ & Hr)%list_elem_of_omap.
    apply rowRecord_inv in Hr as (_ & H1 & _ & _ & H2 & _); done.
  - simpl. apply Nat.lt_succ_r, omap_length_le.
Qed.

Lemma emitted_records_valid_witness :
  (bank_date Fixtures.salary <> invalidDate
   /\ isNaN (bank_amount Fixtures.salary) = false)
  /\ (length Fixtures.plainRecords
      < length (split newline (trim Fixtures.plainStatement)))%nat.
Proof.
  assert (parseCSV isoDatesOnly Fixtures.plainStatement
          = Ok Fixtures.plainRecords) as H by (vm_compute; reflexivity).
  destruct (emitted_records_valid isoDatesOnly _ _ H) as [H1 H2].
  split; [|exact H2]. apply H1. repeat constructor.
Defined.

(** X7.  When the header has no type column, every record has an amount
    that is at least zero, and a record of flow credit has an amount above
    zero: an amount cell of zero gives a debit. *)
Theorem unsigned_without_type_column (Date_isoDay : string -> option string)
    (text headerLine : string) (dataLines : list string)
    (rs : list BankTransaction) :
  split newline (trim text) = headerLine :: dataLines ->
  typeIndex (columnsOf headerLine) = (-1)%Z ->
  parseCSV Date_isoDay text = Ok rs ->
  forall r, r ∈ rs ->
    num_geb (bank_amount r) (Fin 0) = true
    /\ (bank_type r = credit -> num_gtb (bank_amount r) (Fin 0) = true).
Proof.
  unfold parseCSV. intros -> Ht H.
  apply parseLines_inv in H as ((B1 & B2 & B3 & B4) & ->).
  intros r (line & _ & Hr)%list_elem_of_omap.
  apply rowRecord_inv in Hr as (_ & _ & _ & Ha & Hn & Hty); try done.
  specialize (Hty Ht). rewrite Hty, Ha. unfold storedAmount in *.
  rewrite Ht in *. simpl in *. rewrite Ha in Hn.
  destruct (parseAmount (amountCellOf (detectDelimiter headerLine)
                           (columnsOf headerLine) line)) as [| |q];
    [done| |].
  - split; [done|]. by destruct neg.
  - split.
    + apply num_geb_Fin. apply Qabs_nonneg.
    + unfold num_gtb, num_geb. simpl.
      destruct (Qcompare_spec q 0) as [H|H|H]; [done..|]. intros _.
      rewrite Qabs_pos by (by apply Qlt_le_weak).
      by apply Qgt_alt in H as ->.
Qed.

Lemma unsigned_without_type_column_witness :
  num_geb (bank_amount Fixtures.coffee) (Fin 0) = true
  /\ (bank_type Fixtures.coffee = credit ->
      num_gtb (bank_amount Fixtures.coffee) (Fin 0) = true).
Proof.
  apply (unsigned_without_type_column isoDatesOnly Fixtures.plainStatement
           "Date,Description,Amount"
           ["2024-01-05,Coffee,-5.00"; "2024-01-06,Salary,1200.50"]
           Fixtures.plainRecords);
    [vm_compute; reflexivity.. | repeat constructor].
Defined.

(** X8.  The header is read without regard to letter case: two header
    lines that differ in case only give the same delimiter, the same
    columns and, over the same data lines, the same outcome. *)
Theorem header_case_ignored (h1 h2 : string) :
  toLowerCase h1 = toLowerCase h2 ->
  detectDelimiter h1 = detectDelimiter h2
  /\ columnsOf h1 = columnsOf h2
  /\ forall Date_isoDay dataLines,
       parseLines Date_isoDay (h1 :: dataLines)
       = parseLines Date_isoDay (h2 :: dataLines).
Proof.
  intros H.
  assert (forall h, detectDelimiter h = detectDelimiter (toLowerCase h)) as Hd.
  { intros h. unfold detectDelimiter.
    change ";" with (String ";"%char EmptyString).
    by rewrite !includes_hasChar, !hasChar_toLowerCase. }
  assert (detectDelimiter h1 = detectDelimiter h2) as Hdel
    by (by rewrite (Hd h1), (Hd h2), H).
  assert (columnsOf h1 = columnsOf h2) as Hcol
    by (unfold columnsOf; by rewrite Hdel, H).
  split_and!; [done..|].
  intros host rows. unfold parseLines. by rewrite Hdel, Hcol.
Qed.

Lemma header_case_ignored_witness :
  columnsOf "DATE;Description;AMOUNT" = columnsOf "date;description;amount".
Proof.
  apply (header_case_ignored "DATE;Description;AMOUNT" "date;description;amount").
  reflexivity.
Defined.

(** X9.  The description of every record that [parseCSV] returns holds no
    quote character, no delimiter of the statement and no newline. *)
Theorem descriptions_clean (Date_isoDay : string -> option string)
    (text headerLine : string) (dataLines : list string)
    (rs : list BankTransaction) :
  split newline (trim text) = headerLine :: dataLines ->
  parseCSV Date_isoDay text = Ok rs ->
  forall r, r ∈ rs ->
    hasChar quote (bank_description r) = false
    /\ hasChar (detectDelimiter headerLine) (bank_description r) = false
    /\ hasChar newline (bank_description r) = false.
Proof.
  unfold parseCSV. intros Hs H. rewrite Hs in H.
  apply parseLines_inv in H as ((B1 & B2 & B3 & B4) & ->).
  intros r (line & Hl & Hr)%list_elem_of_omap.
  apply rowRecord_inv in Hr as (_ & _ & Hd & _); try done.
  apply cells_clean in Hd as (H1 & H2 & H3). split_and!; [done..|].
  apply H3. apply (lines_clean (trim text)). rewrite Hs. by right.
Qed.

Lemma descriptions_clean_witness :
  hasChar quote (bank_description Fixtures.salary) = false
  /\ hasChar ","%char (bank_description Fixtures.salary) = false
  /\ hasChar newline (bank_description Fixtures.salary) = false.
Proof.
  apply (descriptions_clean isoDatesOnly Fixtures.plainStatement
           "Date,Description,Amount"
           ["2024-01-05,Coffee,-5.00"; "2024-01-06,Salary,1200.50"]
           Fixtures.plainRecords);
    [vm_compute; reflexivity.. | repeat constructor].
Defined.

(** X10.  Data lines are read one by one: under one header, the records of
    two runs of data lines put end to end are the records of the first run
    followed by those of the second. *)
Theorem rows_read_one_by_one (Date_isoDay : string -> option string)
    (headerLine : string) (l1 l2 : list string)
    (rs1 rs2 : list BankTransaction) :
  parseLines Date_isoDay (headerLine :: l1) = Ok rs1 ->
  parseLines Date_isoDay (headerLine :: l2) = Ok rs2 ->
  parseLines Date_isoDay (headerLine :: l1 ++ l2) = Ok (rs1 ++ rs2).
Proof.
  intros H1 H2.
  assert (missingRequired (columnsOf headerLine) = false) as Em.
  { unfold parseLines in H1. by destruct (missingRequired _). }
  apply parseLines_inv in H1 as (_ & ->). apply parseLines_inv in H2 as (_ & ->).
  rewrite parseLines_ok by done. by rewrite omap_app.
Qed.

Lemma rows_read_one_by_one_witness :
  parseLines isoDatesOnly
    ("Date,Description,Amount"
     :: ["2024-01-05,Coffee,-5.00"] ++ ["2024-01-06,Salary,1200.50"])
  = Ok ([Fixtures.coffee] ++ [Fixtures.salary]).
Proof.
  apply rows_read_one_by_one; vm_compute; reflexivity.
Defined.

(** X11.  White space and blank lines before and after the statement do
    not count: the text between them gives the same outcome. *)
Theorem surrounding_space_ignored (Date_isoDay : string -> option string)
    (before text after : string) :
  allSpace before = true -> allSpace after = true ->
  parseCSV Date_isoDay (before +:+ text +:+ after) = parseCSV Date_isoDay text.
Proof.
  intros Ha Hb. unfold parseCSV. by rewrite trim_padded.
Qed.

Lemma surrounding_space_ignored_witness :
  parseCSV isoDatesOnly Fixtures.paddedStatement
  = parseCSV isoDatesOnly Fixtures.plainStatement.
Proof.
  apply (surrounding_space_ignored isoDatesOnly); reflexivity.
Defined.

End IngestProperties.

(** ** The date normaliser *)

Section DateFacts.
Import JS Chars Dates.

Lemma spanDigits_digits c s :
  snd (spanDigits s) = EmptyString -> is_digit c = false -> hasChar c s = false.
Proof.
  intros Hs Hc. induction s as [|d r IH]; simpl in *; [done|].
  destruct (is_digit d) eqn:Ed.
  - destruct (spanDigits r) as [ds rest]. simpl in *.
    rewrite (IH Hs), orb_false_r. destruct (Ascii.eqb_spec d c) as [->|]; [|done].
    congruence.
  - discriminate Hs.
Qed.

Lemma allDigits_plain c s :
  allDigits s = true -> is_digit c = false -> hasChar c s = false.
Proof.
  unfold allDigits. intros H%String.eqb_eq. by apply spanDigits_digits.
Qed.

Lemma dayFirst_split sep day month year :
  is_digit sep = false ->
  shortNumber day -> shortNumber month -> yearNumber year ->
  split sep (dayFirst sep day month year) = [day; month; year].
Proof.
  intros Hsep [Hd _] [Hm _] [Hy _]. unfold dayFirst.
  rewrite split_at by (by apply allDigits_plain).
  rewrite split_at by (by apply allDigits_plain).
  rewrite split_plain by (by apply allDigits_plain). done.
Qed.

Lemma dayFirst_whole sep other day month year :
  is_digit other = false -> other <> sep ->
  shortNumber day -> shortNumber month -> yearNumber year ->
  split other (dayFirst sep day month year) = [dayFirst sep day month year].
Proof.
  intros Ho Hne [Hd _] [Hm _] [Hy _]. apply split_plain. unfold dayFirst.
  assert (Ascii.eqb sep other = false) as Hs
    by (apply Ascii.eqb_neq; congruence).
  rewrite hasChar_app. simpl. rewrite hasChar_app. simpl.
  by rewrite Hs, !allDigits_plain.
Qed.

Lemma matchDMY_dayFirst sep day month year :
  is_digit sep = false ->
  shortNumber day -> shortNumber month -> yearNumber year ->
  matchDMY sep (dayFirst sep day month year) = Some (day, month, year).
Proof.
  intros Hsep Hd Hm Hy. unfold matchDMY.
  rewrite dayFirst_split by done.
  destruct Hd as [-> [Hd1 Hd2]], Hm as [-> [Hm1 Hm2]], Hy as [-> ->].
  apply Nat.leb_le in Hd1, Hd2, Hm1, Hm2. by rewrite Hd1, Hd2, Hm1, Hm2.
Qed.

Lemma matchDMY_other sep other day month year :
  is_digit other = false -> other <> sep ->
  shortNumber day -> shortNumber month -> yearNumber year ->
  matchDMY other (dayFirst sep day month year) = None.
Proof.
  intros Ho Hne Hd Hm Hy. unfold matchDMY.
  by rewrite dayFirst_whole.
Qed.

Lemma rebuilt_host (Date_isoDay : string -> option string)
    (found : option (string * string * string)) iso :
  found ≫= rebuilt Date_isoDay = Some iso -> exists x, Date_isoDay x = Some iso.
Proof.
  destruct found as [[[d m] y]|]; simpl; [eauto | done].
Qed.

Lemma formatDate_cases (Date_isoDay : string -> option string) s :
  formatDate Date_isoDay s = invalidDate
  \/ exists x, Date_isoDay x = Some (formatDate Date_isoDay s).
Proof.
  unfold formatDate. destruct (Date_isoDay s) as [iso|] eqn:E; [eauto|].
  destruct (matchDMY "." s ≫= rebuilt Date_isoDay) as [iso|] eqn:E1.
  { right. by eapply rebuilt_host. }
  destruct (matchDMY "-" s ≫= rebuilt Date_isoDay) as [iso|] eqn:E2.
  { right. by eapply rebuilt_host. }
  by left.
Qed.

End DateFacts.

Section DateProperties.
Import JS Dates.

(** X12.  A date written day first, with dots or with dashes, that the host
    does not read as it stands is read again as year-month-day, with day
    and month filled to two digits; it is invalid when the host does not
    read that either. *)
Theorem day_first_dates_rebuilt (Date_isoDay : string -> option string)
    (sep : ascii) (day month year : string) :
  sep = "."%char \/ sep = "-"%char ->
  shortNumber day -> shortNumber month -> yearNumber year ->
  Date_isoDay (dayFirst sep day month year) = None ->
  formatDate Date_isoDay (dayFirst sep day month year)
  = default invalidDate (Date_isoDay (isoText day month year)).
Proof.
  intros Hsep Hd Hm Hy Hraw. unfold formatDate. rewrite Hraw.
  destruct Hsep as [-> | ->].
  - rewrite matchDMY_dayFirst by done. simpl. fold (isoText day month year).
    destruct (Date_isoDay (isoText day month year)); [done|].
    by rewrite matchDMY_other.
  - rewrite matchDMY_other by done. simpl.
    rewrite matchDMY_dayFirst by done. simpl. fold (isoText day month year).
    by destruct (Date_isoDay (isoText day month year)).
Qed.

Lemma day_first_dates_rebuilt_witness :
  formatDate isoDatesOnly "7.1.2024" = "2024-01-07".
Proof.
  apply (day_first_dates_rebuilt isoDatesOnly "." "7" "1" "2024").
  - by left.
  - split; [reflexivity | simpl; lia].
  - split; [reflexivity | simpl; lia].
  - split; reflexivity.
  - reflexivity.
Defined.

(** X13.  When the host reads back the dates it writes, and does not read
    the words [Invalid Date], normalising twice is normalising once. *)
Theorem formatDate_idempotent (Date_isoDay : string -> option string) :
  (forall s iso, Date_isoDay s = Some iso -> Date_isoDay iso = Some iso) ->
  Date_isoDay invalidDate = None ->
  forall s, formatDate Date_isoDay (formatDate Date_isoDay s)
            = formatDate Date_isoDay s.
Proof.
  intros Hfix Hinv s.
  destruct (formatDate_cases Date_isoDay s) as [->|[x Hx]].
  - unfold formatDate. rewrite Hinv. reflexivity.
  - apply Hfix in Hx. unfold formatDate at 1. by rewrite Hx.
Qed.

Lemma isoDatesOnly_fixed s iso :
  isoDatesOnly s = Some iso -> isoDatesOnly iso = Some iso.
Proof.
  intros H. assert (iso = s) as ->; [|done].
  unfold isoDatesOnly in H.
  repeat (match type of H with
          | match ?l with _ => _ end = _ => destruct l; try discriminate H
          | (if ?b then _ else _) = _ => destruct b; try discriminate H
          end).
  by injection H.
Qed.

Lemma formatDate_idempotent_witness :
  formatDate isoDatesOnly (formatDate isoDatesOnly "7.1.2024")
  = formatDate isoDatesOnly "7.1.2024".
Proof.
  apply (formatDate_idempotent isoDatesOnly).
  - exact isoDatesOnly_fixed.
  - reflexivity.
Defined.

End DateProperties.

(** ** The transaction list *)

Section ListingFacts.
Import JS Listing.

Lemma includes_empty s : includes s EmptyString = true.
Proof. by destruct s. Qed.

Lemma prefix_toLowerCase n s :
  String.prefix n s = true ->
  String.prefix (toLowerCase n) (toLowerCase s) = true.
Proof.
  revert s. induction n as [|c n IH]; intros s; [by destruct s|].
  destruct s as [|d s]; simpl; [done|].
  destruct (ascii_dec c d) as [->|]; [|done].
  intros H. destruct (ascii_dec (lower d) (lower d)); [by apply IH | done].
Qed.

Lemma includes_toLowerCase s n :
  includes s n = true -> includes (toLowerCase s) (toLowerCase n) = true.
Proof.
  induction s as [|d s IH]; cbn [includes toLowerCase].
  - rewrite !orb_false_r. apply (prefix_toLowerCase n EmptyString).
  - intros [H|H]%orb_true_iff; apply orb_true_iff.
    + left. by apply (prefix_toLowerCase n (String d s)).
    + right. by apply IH.
Qed.

Lemma setInto_elem seen xs x :
  x ∈ setInto seen xs <-> x ∈ xs /\ x ∉ seen.
Proof.
  revert seen. induction xs as [|y xs IH]; intros seen; simpl.
  - split; [by intros ?%elem_of_nil | by intros [?%elem_of_nil _]].
  - destruct (decide (y ∈ seen)) as [Hy|Hy].
    + rewrite IH, elem_of_cons. split; [tauto|].
      intros [[->|?] ?]; [done | tauto].
    + rewrite !elem_of_cons, IH, elem_of_cons. split.
      * intros [->|[? ?]]; [tauto|]. split; [tauto|]. tauto.
      * intros [[->|?] ?]; [tauto|].
        destruct (decide (x = y)) as [->|]; [tauto|]. right. tauto.
Qed.

Lemma setInto_NoDup seen xs : NoDup (setInto seen xs).
Proof.
  revert seen. induction xs as [|y xs IH]; intros seen; simpl; [constructor|].
  destruct (decide (y ∈ seen)); [apply IH|].
  constructor; [|apply IH]. rewrite setInto_elem, elem_of_cons. tauto.
Qed.

Lemma setInto_sublist seen xs : setInto seen xs `sublist_of` xs.
Proof.
  revert seen. induction xs as [|y xs IH]; intros seen; simpl; [constructor|].
  destruct (decide (y ∈ seen)); [by apply sublist_cons | by apply sublist_skip].
Qed.

Lemma setInto_snoc seen xs x :
  setInto seen (xs ++ [x])
  = setInto seen xs ++ (if decide (x ∈ seen \/ x ∈ xs) then [] else [x]).
Proof.
  revert seen. induction xs as [|y xs IH]; intros seen; simpl.
  - destruct (decide (x ∈ seen)) as [H|H];
      destruct (decide (x ∈ seen \/ x ∈ [])) as [H'|H']; try done.
    + exfalso. tauto.
    + destruct H' as [?|?%elem_of_nil]; done.
  - destruct (decide (y ∈ seen)) as [Hy|Hy]; rewrite IH.
    + destruct (decide (x ∈ seen \/ x ∈ xs)) as [H|H];
        destruct (decide (x ∈ seen \/ x ∈ y :: xs)) as [H'|H']; try done.
      * exfalso. apply H'. rewrite elem_of_cons. tauto.
      * exfalso. apply H. rewrite elem_of_cons in H'.
        destruct H' as [?|[->|?]]; tauto.
    + simpl. f_equal.
      destruct (decide (x ∈ y :: seen \/ x ∈ xs)) as [H|H];
        destruct (decide (x ∈ seen \/ x ∈ y :: xs)) as [H'|H']; try done.
      * exfalso. apply H'. rewrite elem_of_cons in *. tauto.
      * exfalso. apply H. rewrite elem_of_cons in *. tauto.
Qed.

End ListingFacts.

Section ListingProperties.
Import JS Listing.

(** X14.  With an empty search term and both filters on [all], as the page
    opens, the filter drops no transaction: what goes on to be sorted by
    date is the whole list. *)
Theorem open_filters_show_all (transactions : list Transaction) :
  filteredTransactions "" "all" "all" transactions = transactions.
Proof.
  unfold filteredTransactions.
  induction transactions as [|t l IH]; [done|].
  rewrite filter_cons_True, IH; [done|].
  unfold matchesSearch, matchesType, matchesCategory.
  change (toLowerCase "") with EmptyString. by rewrite includes_empty.
Qed.

(** X15.  On texts of ASCII characters the search does not look at letter
    case: a transaction whose description or category holds the term as
    written is listed for the term typed in any case, when the two filters
    are on [all]. *)
Theorem search_ignores_case (term typed : string) (t : Transaction)
    (transactions : list Transaction) :
  Chars.isAscii term = true ->
  Chars.isAscii typed = true ->
  Chars.isAscii (tx_description t) = true ->
  Chars.isAscii (tx_category t) = true ->
  toLowerCase typed = toLowerCase term ->
  includes (tx_description t) term = true
  \/ includes (tx_category t) term = true ->
  t ∈ transactions ->
  t ∈ filteredTransactions typed "all" "all" transactions.
Proof.
  intros _ _ _ _ Hcase Hin Ht. unfold filteredTransactions.
  apply list_elem_of_filter. split; [|done].
  unfold matchesSearch, matchesType, matchesCategory. rewrite Hcase.
  destruct Hin as [H|H]; apply includes_toLowerCase in H; rewrite H;
    by rewrite ?orb_true_r.
Qed.

Lemma search_ignores_case_witness :
  Ledger.groceries ∈ filteredTransactions "Groceries" "all" "all" Ledger.march.
Proof.
  apply (search_ignores_case "GROCERIES" "Groceries").
  - reflexivity.
  - reflexivity.
  - reflexivity.
  - reflexivity.
  - reflexivity.
  - left. reflexivity.
  - repeat constructor.
Defined.

(** X16.  The category filter offers each category of the transactions
    once, in the order of first appearance, and nothing else: no
    transaction gives no category, and a further transaction at the end
    adds its category at the end of the offer when the offer does not hold
    it yet, and leaves the offer as it is otherwise.  Choosing an offered
    category, with an empty search term and the type filter on [all],
    never gives an empty list. *)
Theorem categories_offered (transactions : list Transaction) :
  NoDup (categories transactions)
  /\ (forall c, c ∈ categories transactions
                <-> exists t, t ∈ transactions /\ tx_category t = c)
  /\ categories transactions `sublist_of` (tx_category <$> transactions)
  /\ (forall c, c ∈ categories transactions ->
        filteredTransactions "" "all" c transactions <> [])
  /\ categories [] = []
  /\ (forall t : Transaction,
        categories (transactions ++ [t])
        = if decide (tx_category t ∈ categories transactions)
          then categories transactions
          else categories transactions ++ [tx_category t]).
Proof.
  unfold categories, fromSet.
  assert (forall c, c ∈ setInto [] (tx_category <$> transactions)
                    <-> exists t, t ∈ transactions /\ tx_category t = c) as Hmem.
  { intros c. rewrite setInto_elem, list_elem_of_fmap. split.
    - intros [(t & -> & Ht) _]. eauto.
    - intros (t & Ht & <-). split; [eauto | by intros ?%elem_of_nil]. }
  split_and!; [apply setInto_NoDup | exact Hmem | apply setInto_sublist
               | | done |].
  - intros c (t & Ht & <-)%Hmem Hnil.
    assert (t ∈ filteredTransactions "" "all" (tx_category t) transactions) as H.
    { unfold filteredTransactions. apply list_elem_of_filter. split; [|done].
      unfold matchesSearch, matchesType, matchesCategory.
      change (toLowerCase "") with EmptyString.
      rewrite includes_empty, !String.eqb_refl. simpl. by rewrite orb_true_r. }
    rewrite Hnil in H. by apply elem_of_nil in H.
  - intros t. rewrite fmap_app. simpl. rewrite setInto_snoc.
    destruct (decide (tx_category t ∈ [] \/ _)) as [H|H];
      destruct (decide (tx_category t ∈ setInto [] _)) as [H'|H']; try done.
    + by rewrite app_nil_r.
    + exfalso. apply H'. apply setInto_elem.
      destruct H as [?%elem_of_nil|?]; [done|]. split; [done|].
      by intros ?%elem_of_nil.
    + exfalso. apply H. right. by apply setInto_elem in H' as [? _].
Qed.

Lemma categories_offered_witness :
  filteredTransactions "" "all" "Food" Ledger.march <> []
  /\ categories Ledger.march = ["Food"; "Housing"; "Salary"].
Proof.
  split.
  - destruct (categories_offered Ledger.march) as (_ & _ & _ & H & _).
    apply H. vm_compute. repeat constructor.
  - destruct (categories_offered [Ledger.groceries; Ledger.rent; Ledger.wages])
      as (_ & _ & _ & _ & _ & H).
    change Ledger.march
      with ([Ledger.groceries; Ledger.rent; Ledger.wages] ++ [Ledger.snack]).
    rewrite H. reflexivity.
Defined.

End ListingProperties.

(** ** The expense calendar *)

Section CalendarFacts.
Import Calendar.

Lemma selected_expenses (transactions : list Transaction) dateStr :
  filter (fun t => Is_true (isExpense t))
         (getSelectedDateExpenses transactions (Some dateStr))
  = filter (fun t => Is_true (isExpense t && onDay dateStr t)) transactions.
Proof.
  simpl. rewrite list_filter_filter. apply list_filter_iff. intros t.
  by rewrite andb_True.
Qed.

Lemma num_gtb_above (x : num) (c : num) :
  num_geb c (Fin 0) = true -> num_gtb x c = true -> num_gtb x (Fin 0) = true.
Proof.
  unfold num_geb, num_gtb.
  destruct c as [|[]|c], x as [|[]|x]; simpl; try done.
  destruct (Qcompare_spec c 0) as [Hc|Hc|Hc]; [|done|];
    destruct (Qcompare_spec x c) as [Hx|Hx|Hx]; try done; intros _ _.
  - rewrite Hc in Hx. by apply Qgt_alt in Hx as ->.
  - assert (0 < x)%Q as H by (by apply (Qlt_trans _ c)).
    by apply Qgt_alt in H as ->.
Qed.

Lemma dailyBudget_nonneg period budget :
  num_geb budget (Fin 0) = true ->
  num_geb (dailyBudget period budget) (Fin 0) = true.
Proof.
  destruct period; [done|..]; simpl; unfold num_div;
    (destruct budget as [|[]|b]; [done..|]);
    change ((30 ?= 0)%Q) with Gt; cbv iota; rewrite !num_geb_Fin;
    intros Hb; apply Qle_shift_div_l; [done | by rewrite Qmult_0_l | done
                                      | by rewrite Qmult_0_l].
Qed.

End CalendarFacts.

Section CalendarProperties.
Import Calendar.

(** X17.  The total shown for the selected day is the daily expense of
    that day as the calendar computes it. *)
Theorem selected_total_is_daily_expense (transactions : list Transaction)
    (dateStr : string) :
  selectedDayTotal transactions (Some dateStr)
  = getDailyExpenses transactions dateStr.
Proof.
  unfold selectedDayTotal, getDailyExpenses. by rewrite selected_expenses.
Qed.

(** X18.  With a budget that is not negative, a day marked as over budget
    is a day marked as having expenses. *)
Theorem over_budget_days_have_expenses (period : Period) (budget : num)
    (transactions : list Transaction) (dateStr : string) :
  num_geb budget (Fin 0) = true ->
  isDayOverBudget period budget transactions dateStr = true ->
  hasExpenses transactions dateStr = true.
Proof.
  intros Hb. unfold isDayOverBudget, hasExpenses.
  apply num_gtb_above. by apply dailyBudget_nonneg.
Qed.

Lemma over_budget_days_have_expenses_witness :
  hasExpenses Ledger.march "2024-03-01" = true.
Proof.
  apply (over_budget_days_have_expenses monthly (Fin 3000));
    vm_compute; reflexivity.
Defined.

(** X19.  For the weekly and the monthly period the badge of the selected
    day is destructive exactly when the calendar marks that day as over
    budget; for the daily period the badge still compares the day with a
    thirtieth of the budget. *)
Theorem badge_follows_calendar (period : Period) (budget : num)
    (transactions : list Transaction) (dateStr : string) :
  (period <> daily ->
     badgeDestructive budget transactions (Some dateStr)
     = isDayOverBudget period budget transactions dateStr)
  /\ badgeDestructive budget transactions (Some dateStr)
     = num_gtb (getDailyExpenses transactions dateStr)
               (num_div budget (Fin 30)).
Proof.
  unfold badgeDestructive, isDayOverBudget, selectedDayTotal, getDailyExpenses.
  rewrite selected_expenses. split; [|done]. by destruct period.
Qed.

Lemma badge_follows_calendar_witness :
  badgeDestructive (Fin 3000) Ledger.march (Some "2024-03-01")
  = isDayOverBudget monthly (Fin 3000) Ledger.march "2024-03-01".
Proof.
  apply (proj1 (badge_follows_calendar monthly (Fin 3000) Ledger.march
                  "2024-03-01")).
  discriminate.
Defined.

End CalendarProperties.
